(** * product-service: the entity, repository and service layers in Rocq

    A shallow embedding of the Go packages [models], [repository] and
    [service] of product-service, with the parts of the Go runtime and of
    the libraries they call (errors/fmt error wrapping, time.Now,
    google/uuid, the DynamoDB client) modelled as far as the code uses
    them.

    Conventions.
    - A Go function that returns [(T, error)] is a computation [M S T]
      over the state [S] it can touch; [error]-only functions are
      [M S unit].  A [*Product] that may be nil is an [option Product].
    - [float64] is [spec_float] (IEEE 754 data: zeros, infinities, NaN,
      finite numbers) and is only ever compared with zero; [int] is [Z]
      (no arithmetic is performed on it); [string] is [string];
      [time.Time] is an instant on the [Z] time line.
    - Everything the environment decides (clock readings, random bytes,
      failing SDK calls) is read from an oracle indexed by the number of
      reads made so far, so every definition computes. *)

From Stdlib Require Import ZArith Ascii String Floats.SpecFloat.
From stdpp Require Import base tactics option strings list gmap.

Open Scope string_scope.
Open Scope Z_scope.

(* ===================================================================== *)
(** ** Go errors: errors.New, fmt.Errorf with %w, errors.Is *)
(* ===================================================================== *)

Module errors.

(** An error value.  The two sentinels are the package-level variables of
    package service; [Is] compares against them by identity, so they are
    constructors of their own and no other error is equal to them. *)
Inductive error : Type :=
| ErrProductNotFound                              (* errors.New("product not found") *)
| ErrInvalidProduct                               (* errors.New("invalid product data") *)
| New (text : string)                             (* errors.New(text) *)
| awserr (text : string)                          (* an error returned by the AWS SDK *)
| Errorf_w_text (wrapped : error) (text : string) (* fmt.Errorf("%w: " + text, wrapped) *)
| Errorf_text_w (text : string) (wrapped : error) (* fmt.Errorf(text + ": %w", wrapped) *).

#[global] Instance error_eq_dec : EqDecision error.
Proof. solve_decision. Defined.

(** err.Error() *)
Fixpoint Error (e : error) : string :=
  match e with
  | ErrProductNotFound => "product not found"
  | ErrInvalidProduct => "invalid product data"
  | New text => text
  | awserr text => text
  | Errorf_w_text wrapped text => Error wrapped +:+ ": " +:+ text
  | Errorf_text_w text wrapped => text +:+ ": " +:+ Error wrapped
  end.

(** errors.Unwrap *)
Definition Unwrap (e : error) : option error :=
  match e with
  | Errorf_w_text wrapped _ | Errorf_text_w _ wrapped => Some wrapped
  | _ => None
  end.

(** errors.Is: walk the Unwrap chain looking for [target]. *)
Fixpoint Is (e target : error) : bool :=
  bool_decide (e = target) ||
  match e with
  | Errorf_w_text wrapped _ | Errorf_text_w _ wrapped => Is wrapped target
  | _ => false
  end.

End errors.
Export errors.

(** The error taxonomy, as the transport adapter tells the kinds apart
    (errors.Is against the two sentinels; everything else is a failure of
    the persistence layer). *)
Definition InvalidInputError (e : error) : Prop := Is e ErrInvalidProduct = true.
Definition NotFoundError (e : error) : Prop := Is e ErrProductNotFound = true.
Definition PersistenceError (e : error) : Prop :=
  Is e ErrInvalidProduct = false ∧ Is e ErrProductNotFound = false.

(* ===================================================================== *)
(** ** Computations that thread a state and may return an error *)
(* ===================================================================== *)

Inductive result (A : Type) : Type :=
| Ok (a : A)
| Err (e : error).
Arguments Ok {A} a.
Arguments Err {A} e.

Definition M (S A : Type) : Type := S → S * result A.

Definition ret {S A} (a : A) : M S A := λ s, (s, Ok a).

(** [return nil, err]: the state reached so far is kept. *)
Definition throw {S A} (e : error) : M S A := λ s, (s, Err e).

Definition bind {S A B} (m : M S A) (k : A → M S B) : M S B :=
  λ s, match m s with
       | (s', Ok a) => k a s'
       | (s', Err e) => (s', Err e)
       end.

(** [if err != nil { return fmt.Errorf(text + ": %w", err) }] *)
Definition wrapping {S A} (text : string) (m : M S A) : M S A :=
  λ s, match m s with
       | (s', Ok a) => (s', Ok a)
       | (s', Err e) => (s', Err (Errorf_text_w text e))
       end.

Declare Scope go_scope.
Delimit Scope go_scope with go.
Notation "'let*' x ':=' m 'in' k" := (bind m (λ x, k))
  (at level 10, x name, m at level 100, k at level 200) : go_scope.
Open Scope go_scope.

(** Run a computation on a component of a product state. *)
Definition on_fst {S T A} (m : M S A) : M (S * T) A :=
  λ w, let '(s', r) := m w.1 in ((s', w.2), r).
Definition on_snd {S T A} (m : M T A) : M (S * T) A :=
  λ w, let '(t', r) := m w.2 in ((w.1, t'), r).

(* ===================================================================== *)
(** ** The process environment: wall clock and random source *)
(* ===================================================================== *)

Definition Time : Type := Z.
Definition float64 : Type := spec_float.

Record Env : Type := {
  Clock : nat → Time;      (* the n-th reading of the wall clock *)
  NowCalls : nat;          (* readings taken so far *)
  Entropy : nat → Z;       (* the n-th 16-byte read of the random source *)
  UuidCalls : nat          (* reads made so far *)
}.

(** The environment after one more clock reading, and after one more read
    of the random source. *)
Definition tick (env : Env) : Env :=
  {| Clock := Clock env; NowCalls := S (NowCalls env);
     Entropy := Entropy env; UuidCalls := UuidCalls env |}.

Definition draw (env : Env) : Env :=
  {| Clock := Clock env; NowCalls := NowCalls env;
     Entropy := Entropy env; UuidCalls := S (UuidCalls env) |}.

(** The clock reading the next [time.Now()] returns. *)
Definition now_of (env : Env) : Time := Clock env (NowCalls env).

Module time.

(** time.Now() *)
Definition Now : M Env Time := λ env, (tick env, Ok (now_of env)).

(** t.After(u) *)
Definition After (t u : Time) : bool := u <? t.

End time.

Module uuid.

(** A UUID is its 16 bytes. *)
Definition UUID : Type := list Z.

(** Byte [i] of a 16-byte read seen as a big-endian number. *)
Definition byte_at (r : Z) (i : nat) : Z :=
  Z.land (Z.shiftr r (8 * (15 - Z.of_nat i))) 255.

(** uuid.NewRandom: 16 random bytes with the version (4) and variant
    (RFC 4122) bits forced. *)
Definition NewRandom (r : Z) : UUID :=
  let b := byte_at r <$> seq 0 16 in
  let b := alter (λ x, Z.lor (Z.land x 15) 64) 6%nat b in
  alter (λ x, Z.lor (Z.land x 63) 128) 8%nat b.

(** uuid.New(), reading the random source. *)
Definition New : M Env UUID :=
  λ env, (draw env, Ok (NewRandom (Entropy env (UuidCalls env)))).

Definition xdigit (n : Z) : ascii :=
  default "0"%char (String.get (Z.to_nat n) "0123456789abcdef").

Fixpoint encodeHex (bs : list Z) (rest : string) : string :=
  match bs with
  | [] => rest
  | b :: bs => String (xdigit (Z.shiftr b 4))
                 (String (xdigit (Z.land b 15)) (encodeHex bs rest))
  end.

(** u.String(): xxxxxxxx-xxxx-xxxx-xxxx-xxxxxxxxxxxx *)
Definition String_ (u : UUID) : string :=
  encodeHex (take 4 u) (String "-"
    (encodeHex (take 2 (drop 4 u)) (String "-"
      (encodeHex (take 2 (drop 6 u)) (String "-"
        (encodeHex (take 2 (drop 8 u)) (String "-"
          (encodeHex (take 6 (drop 10 u)) EmptyString)))))))).

End uuid.

(* ===================================================================== *)
(** ** package models *)
(* ===================================================================== *)

Module models.

Record Product : Type := {
  ID : string;
  Name : string;
  Description : string;
  Price : float64;
  Category : string;
  SKU : string;
  Stock : Z;
  IsActive : bool;
  CreatedAt : Time;
  UpdatedAt : Time
}.

Module CreateProductRequest.
Record t : Type := {
  Name : string;
  Description : string;
  Price : float64;
  Category : string;
  SKU : string;
  Stock : Z
}.
End CreateProductRequest.

(** A nil pointer is [None]; a pointer to a value is [Some] of it. *)
Module UpdateProductRequest.
Record t : Type := {
  Name : option string;
  Description : option string;
  Price : option float64;
  Category : option string;
  SKU : option string;
  Stock : option Z;
  IsActive : option bool
}.
(** UpdateProductRequest{}: every pointer nil. *)
Definition empty : t :=
  {| Name := None; Description := None; Price := None; Category := None;
     SKU := None; Stock := None; IsActive := None |}.
End UpdateProductRequest.

Definition NewProduct (req : CreateProductRequest.t) : M Env Product :=
  let* now := time.Now in
  let* id := uuid.New in
  ret {| ID := uuid.String_ id;
         Name := CreateProductRequest.Name req;
         Description := CreateProductRequest.Description req;
         Price := CreateProductRequest.Price req;
         Category := CreateProductRequest.Category req;
         SKU := CreateProductRequest.SKU req;
         Stock := CreateProductRequest.Stock req;
         IsActive := true;
         CreatedAt := now;
         UpdatedAt := now |}.

(** The assignments [p.F = v] of Update. *)
Definition set_Name (v : string) (p : Product) : Product :=
  {| ID := ID p; Name := v; Description := Description p; Price := Price p;
     Category := Category p; SKU := SKU p; Stock := Stock p;
     IsActive := IsActive p; CreatedAt := CreatedAt p; UpdatedAt := UpdatedAt p |}.
Definition set_Description (v : string) (p : Product) : Product :=
  {| ID := ID p; Name := Name p; Description := v; Price := Price p;
     Category := Category p; SKU := SKU p; Stock := Stock p;
     IsActive := IsActive p; CreatedAt := CreatedAt p; UpdatedAt := UpdatedAt p |}.
Definition set_Price (v : float64) (p : Product) : Product :=
  {| ID := ID p; Name := Name p; Description := Description p; Price := v;
     Category := Category p; SKU := SKU p; Stock := Stock p;
     IsActive := IsActive p; CreatedAt := CreatedAt p; UpdatedAt := UpdatedAt p |}.
Definition set_Category (v : string) (p : Product) : Product :=
  {| ID := ID p; Name := Name p; Description := Description p; Price := Price p;
     Category := v; SKU := SKU p; Stock := Stock p;
     IsActive := IsActive p; CreatedAt := CreatedAt p; UpdatedAt := UpdatedAt p |}.
Definition set_SKU (v : string) (p : Product) : Product :=
  {| ID := ID p; Name := Name p; Description := Description p; Price := Price p;
     Category := Category p; SKU := v; Stock := Stock p;
     IsActive := IsActive p; CreatedAt := CreatedAt p; UpdatedAt := UpdatedAt p |}.
Definition set_Stock (v : Z) (p : Product) : Product :=
  {| ID := ID p; Name := Name p; Description := Description p; Price := Price p;
     Category := Category p; SKU := SKU p; Stock := v;
     IsActive := IsActive p; CreatedAt := CreatedAt p; UpdatedAt := UpdatedAt p |}.
Definition set_IsActive (v : bool) (p : Product) : Product :=
  {| ID := ID p; Name := Name p; Description := Description p; Price := Price p;
     Category := Category p; SKU := SKU p; Stock := Stock p;
     IsActive := v; CreatedAt := CreatedAt p; UpdatedAt := UpdatedAt p |}.
Definition set_UpdatedAt (v : Time) (p : Product) : Product :=
  {| ID := ID p; Name := Name p; Description := Description p; Price := Price p;
     Category := Category p; SKU := SKU p; Stock := Stock p;
     IsActive := IsActive p; CreatedAt := CreatedAt p; UpdatedAt := v |}.

(** [if ptr != nil { p.F = *ptr }] *)
Definition assign_if_present {A} (set : A → Product → Product)
    (ptr : option A) (p : Product) : Product :=
  match ptr with
  | Some v => set v p
  | None => p
  end.

(** func (p *Product) Update(req UpdateProductRequest); the value
    returned is the record [p] points to when the method returns. *)
Definition Update (p : Product) (req : UpdateProductRequest.t) : M Env Product :=
  let* now := time.Now in
  let p := assign_if_present set_Name (UpdateProductRequest.Name req) p in
  let p := assign_if_present set_Description (UpdateProductRequest.Description req) p in
  let p := assign_if_present set_Price (UpdateProductRequest.Price req) p in
  let p := assign_if_present set_Category (UpdateProductRequest.Category req) p in
  let p := assign_if_present set_SKU (UpdateProductRequest.SKU req) p in
  let p := assign_if_present set_Stock (UpdateProductRequest.Stock req) p in
  let p := assign_if_present set_IsActive (UpdateProductRequest.IsActive req) p in
  ret (set_UpdatedAt now p).

(** The record [Update] leaves behind when the clock reads [now]. *)
Definition merged (now : Time) (p : Product) (req : UpdateProductRequest.t) : Product :=
  set_UpdatedAt now
    (assign_if_present set_IsActive (UpdateProductRequest.IsActive req)
    (assign_if_present set_Stock (UpdateProductRequest.Stock req)
    (assign_if_present set_SKU (UpdateProductRequest.SKU req)
    (assign_if_present set_Category (UpdateProductRequest.Category req)
    (assign_if_present set_Price (UpdateProductRequest.Price req)
    (assign_if_present set_Description (UpdateProductRequest.Description req)
    (assign_if_present set_Name (UpdateProductRequest.Name req) p))))))).

End models.
Export models.

(* ===================================================================== *)
(** ** The DynamoDB table behind the SDK client *)
(* ===================================================================== *)

Module dynamodb.

(** The table is a map from primary key (the attribute [id]) to item, and
    every read sees the writes made before it.  An item is identified
    with the record whose attributes it carries (the attribute names are
    the [dynamodbav] tags of [Product]); that an item cannot be decoded,
    like every other failure inside the SDK, is left to the fault plan. *)
Abbreviation Item := Product (only parsing).

(** The comparisons the repository puts in a FilterExpression, with the
    expression attribute value already substituted. *)
Inductive Condition : Type :=
| is_active_equals (active : bool)       (* is_active = :active, a BOOL *)
| category_equals (category : string)    (* category = :category, an S *).

(** Conditions joined by AND. *)
Definition FilterExpression : Type := list Condition.

Definition holds (c : Condition) (item : Item) : bool :=
  match c with
  | is_active_equals active => bool_decide (IsActive item = active)
  | category_equals category => bool_decide (Category item = category)
  end.

Definition matches (f : FilterExpression) (item : Item) : bool :=
  forallb (λ c, holds c item) f.

(** What the code asks of the SDK, in the order it asks. *)
Inductive Call : Type :=
| CallMarshalMap (product : Product)
| CallUnmarshalMap (item : Item)
| CallPutItem (item : Item)
| CallGetItem (key : string)
| CallScan (filter : FilterExpression)
| CallDeleteItem (key : string).

Record DynamoDB : Type := {
  Table : gmap string Item;       (* the items, by primary key *)
  Trace : list Call;              (* the calls made so far, latest first *)
  Faults : nat → option string    (* [Faults n = Some text]: call number n fails *)
}.

(** The state after call [c] has left the table as [table]. *)
Definition after (c : Call) (table : gmap string Item) (db : DynamoDB) : DynamoDB :=
  {| Table := table; Trace := c :: Trace db; Faults := Faults db |}.

(** What the fault plan holds for the next call. *)
Definition next_fault (db : DynamoDB) : option string :=
  Faults db (length (Trace db)).

(** None of the next [k] calls fails. *)
Definition no_fault_for (k : nat) (db : DynamoDB) : Prop :=
  ∀ i, (i < k)%nat → Faults db (length (Trace db) + i) = None.

(** One SDK call: it is recorded, and either fails as the fault plan
    says, leaving the table alone, or takes effect.  A failed call is
    thus one the store did not apply; the SDK can also return an error
    for a write the store did apply (a timeout on the way back), which
    the caller cannot tell apart and this model leaves out.  The
    numbered properties below therefore state of the table after a
    failed write only what holds whether or not the write was applied. *)
Definition sdk_call {A} (c : Call)
    (effect : gmap string Item → gmap string Item * A) : M DynamoDB A :=
  λ db,
    match next_fault db with
    | Some text => (after c (Table db) db, Err (awserr text))
    | None =>
        let '(table, a) := effect (Table db) in
        (after c table db, Ok a)
    end.

(** dynamodbattribute.MarshalMap / UnmarshalMap *)
Definition MarshalMap (product : Product) : M DynamoDB Item :=
  sdk_call (CallMarshalMap product) (λ table, (table, product)).
Definition UnmarshalMap (item : Item) : M DynamoDB Product :=
  sdk_call (CallUnmarshalMap item) (λ table, (table, item)).

(** Client.PutItem: unconditional write under the item's key. *)
Definition PutItem (item : Item) : M DynamoDB unit :=
  sdk_call (CallPutItem item) (λ table, (<[ID item := item]> table, tt)).

(** Client.GetItem: [None] is a nil [result.Item]. *)
Definition GetItem (key : string) : M DynamoDB (option Item) :=
  sdk_call (CallGetItem key) (λ table, (table, table !! key)).

(** Client.Scan: the items that satisfy the filter, in table order. *)
Definition Scan (filter : FilterExpression) : M DynamoDB (list Item) :=
  sdk_call (CallScan filter)
    (λ table, (table, List.filter (matches filter) (snd <$> map_to_list table))).

(** Client.DeleteItem: unconditional delete. *)
Definition DeleteItem (key : string) : M DynamoDB unit :=
  sdk_call (CallDeleteItem key) (λ table, (delete key table, tt)).

End dynamodb.
Export dynamodb.

(* ===================================================================== *)
(** ** package repository *)
(* ===================================================================== *)

Module repository.

(** type ProductRepository interface *)
Class ProductRepository (R : Type) : Type := {
  Create : Product → M R unit;
  GetByID : string → M R (option Product);
  GetAll : M R (list Product);
  GetByCategory : string → M R (list Product);
  Update : Product → M R unit;
  Delete : string → M R unit
}.

Definition productRepository_Create (product : Product) : M DynamoDB unit :=
  let* item := wrapping "failed to marshal product" (MarshalMap product) in
  let* _ := wrapping "failed to create product" (PutItem item) in
  ret tt.

Definition productRepository_GetByID (id : string) : M DynamoDB (option Product) :=
  let* result := wrapping "failed to get product" (GetItem id) in
  match result with
  | None => ret None
  | Some item =>
      let* product := wrapping "failed to unmarshal product" (UnmarshalMap item) in
      ret (Some product)
  end.

(** [for _, item := range result.Items { ... products = append(products, &product) }] *)
Fixpoint unmarshal_each (items : list Item) (products : list Product)
    : M DynamoDB (list Product) :=
  match items with
  | [] => ret products
  | item :: items =>
      let* product := wrapping "failed to unmarshal product" (UnmarshalMap item) in
      unmarshal_each items (products ++ [product])
  end.

Definition productRepository_GetAll : M DynamoDB (list Product) :=
  let* result := wrapping "failed to scan products"
                   (Scan [is_active_equals true]) in
  unmarshal_each result [].

Definition productRepository_GetByCategory (category : string)
    : M DynamoDB (list Product) :=
  let* result := wrapping "failed to scan products by category"
                   (Scan [category_equals category; is_active_equals true]) in
  unmarshal_each result [].

Definition productRepository_Update (product : Product) : M DynamoDB unit :=
  let* item := wrapping "failed to marshal product" (MarshalMap product) in
  let* _ := wrapping "failed to update product" (PutItem item) in
  ret tt.

Definition productRepository_Delete (id : string) : M DynamoDB unit :=
  let* _ := wrapping "failed to delete product" (DeleteItem id) in
  ret tt.

(** func NewProductRepository: the DynamoDB-backed implementation. *)
#[global] Instance productRepository : ProductRepository DynamoDB := {|
  Create := productRepository_Create;
  GetByID := productRepository_GetByID;
  GetAll := productRepository_GetAll;
  GetByCategory := productRepository_GetByCategory;
  Update := productRepository_Update;
  Delete := productRepository_Delete
|}.

End repository.
Export repository.

(* ===================================================================== *)
(** ** package service *)
(* ===================================================================== *)

Module service.

(** [x <= 0] and [x > 0] on float64; both are false when [x] is NaN. *)
Definition float64_le0 (x : float64) : bool := SFleb x (S754_zero false).
Definition float64_gt0 (x : float64) : bool := SFltb (S754_zero false) x.

Definition validateCreateRequest (req : CreateProductRequest.t) : option error :=
  if bool_decide (CreateProductRequest.Name req = "") then
    Some (New "product name is required")
  else if float64_le0 (CreateProductRequest.Price req) then
    Some (New "product price must be greater than 0")
  else if bool_decide (CreateProductRequest.Category req = "") then
    Some (New "product category is required")
  else if bool_decide (CreateProductRequest.SKU req = "") then
    Some (New "product SKU is required")
  else if CreateProductRequest.Stock req <? 0 then
    Some (New "product stock cannot be negative")
  else None.

(** [ptr != nil && cond v], with [v] the value pointed to *)
Definition present_and {A} (cond : A → bool) (ptr : option A) : bool :=
  match ptr with
  | Some v => cond v
  | None => false
  end.

Definition validateUpdateRequest (req : UpdateProductRequest.t) : option error :=
  if present_and float64_le0 (UpdateProductRequest.Price req) then
    Some (New "product price must be greater than 0")
  else if present_and (λ v, v <? 0) (UpdateProductRequest.Stock req) then
    Some (New "product stock cannot be negative")
  else if present_and (λ v, bool_decide (v = "")) (UpdateProductRequest.Name req) then
    Some (New "product name cannot be empty")
  else if present_and (λ v, bool_decide (v = "")) (UpdateProductRequest.Category req) then
    Some (New "product category cannot be empty")
  else if present_and (λ v, bool_decide (v = "")) (UpdateProductRequest.SKU req) then
    Some (New "product SKU cannot be empty")
  else None.

(** The two shapes of error the service builds around ErrInvalidProduct. *)
Definition id_cannot_be_empty : error :=
  Errorf_w_text ErrInvalidProduct "product ID cannot be empty".

Definition invalid_product (err : error) : error :=
  Errorf_w_text ErrInvalidProduct (Error err).

Section productService.

(** type productService struct { repo repository.ProductRepository }:
    the service runs in the process environment and on whatever
    state [R] its repository works on. *)
Context {R : Type} {repo : ProductRepository R}.

Definition CreateProduct (req : CreateProductRequest.t) : M (Env * R) Product :=
  match validateCreateRequest req with
  | Some err => throw (Errorf_w_text ErrInvalidProduct (Error err))
  | None =>
      let* product := on_fst (NewProduct req) in
      let* _ := wrapping "failed to create product" (on_snd (Create product)) in
      ret product
  end.

Definition GetProduct (id : string) : M (Env * R) Product :=
  if bool_decide (id = "") then
    throw (Errorf_w_text ErrInvalidProduct "product ID cannot be empty")
  else
    let* product := wrapping "failed to get product" (on_snd (GetByID id)) in
    match product with
    | None => throw ErrProductNotFound
    | Some product => ret product
    end.

Definition GetAllProducts : M (Env * R) (list Product) :=
  let* products := wrapping "failed to get products" (on_snd GetAll) in
  ret products.

Definition GetProductsByCategory (category : string) : M (Env * R) (list Product) :=
  if bool_decide (category = "") then
    throw (Errorf_w_text ErrInvalidProduct "category cannot be empty")
  else
    let* products := wrapping "failed to get products by category"
                       (on_snd (GetByCategory category)) in
    ret products.

Definition UpdateProduct (id : string) (req : UpdateProductRequest.t)
    : M (Env * R) Product :=
  if bool_decide (id = "") then
    throw (Errorf_w_text ErrInvalidProduct "product ID cannot be empty")
  else
    let* product := wrapping "failed to get product for update"
                      (on_snd (GetByID id)) in
    match product with
    | None => throw ErrProductNotFound
    | Some product =>
        match validateUpdateRequest req with
        | Some err => throw (Errorf_w_text ErrInvalidProduct (Error err))
        | None =>
            let* product := on_fst (models.Update product req) in
            let* _ := wrapping "failed to update product"
                        (on_snd (repository.Update product)) in
            ret product
        end
    end.

Definition DeleteProduct (id : string) : M (Env * R) unit :=
  if bool_decide (id = "") then
    throw (Errorf_w_text ErrInvalidProduct "product ID cannot be empty")
  else
    let* product := wrapping "failed to get product for deletion"
                      (on_snd (GetByID id)) in
    match product with
    | None => throw ErrProductNotFound
    | Some _ =>
        let* _ := wrapping "failed to delete product" (on_snd (Delete id)) in
        ret tt
    end.

End productService.

End service.
Export service.

(* ===================================================================== *)
(** ** Test doubles and sample data *)
(* ===================================================================== *)

Module mocks.

(** type MockProductRepository (product_service_test.go): every method
    records the call and returns what the test scripted for it. *)
Inductive MockCall : Type :=
| MockCreate (product : Product)
| MockGetByID (id : string)
| MockGetAll
| MockGetByCategory (category : string)
| MockUpdate (product : Product)
| MockDelete (id : string).

Record MockProductRepository : Type := {
  OnCreate : Product → result unit;
  OnGetByID : string → result (option Product);
  OnGetAll : result (list Product);
  OnGetByCategory : string → result (list Product);
  OnUpdate : Product → result unit;
  OnDelete : string → result unit;
  Calls : list MockCall           (* latest first *)
}.

Definition Called {A} (c : MockCall) (answer : MockProductRepository → result A)
    : M MockProductRepository A :=
  λ m, ({| OnCreate := OnCreate m; OnGetByID := OnGetByID m; OnGetAll := OnGetAll m;
           OnGetByCategory := OnGetByCategory m; OnUpdate := OnUpdate m;
           OnDelete := OnDelete m; Calls := c :: Calls m |},
        answer m).

#[global] Instance MockProductRepository_repo : ProductRepository MockProductRepository := {|
  Create product := Called (MockCreate product) (λ m, OnCreate m product);
  GetByID id := Called (MockGetByID id) (λ m, OnGetByID m id);
  GetAll := Called MockGetAll OnGetAll;
  GetByCategory category := Called (MockGetByCategory category) (λ m, OnGetByCategory m category);
  Update product := Called (MockUpdate product) (λ m, OnUpdate m product);
  Delete id := Called (MockDelete id) (λ m, OnDelete m id)
|}.

End mocks.
Export mocks.

Module samples.

(** 12.5 and 50 as binary64 numbers: a 53-bit mantissa and its exponent. *)
Definition price_12_50 : float64 := S754_finite false 7036874417766400 (-49).
Definition price_50 : float64 := S754_finite false 7036874417766400 (-47).

(** A clock that advances by one unit per reading, from [t0]. *)
Definition ticking (t0 : Time) : nat → Time := λ n, t0 + Z.of_nat n.

Definition env0 : Env :=
  {| Clock := ticking 1000; NowCalls := 0; Entropy := λ n, Z.of_nat n; UuidCalls := 0 |}.

Definition widget_request : CreateProductRequest.t :=
  {| CreateProductRequest.Name := "Widget";
     CreateProductRequest.Description := "";
     CreateProductRequest.Price := price_12_50;
     CreateProductRequest.Category := "tools";
     CreateProductRequest.SKU := "W-1";
     CreateProductRequest.Stock := 5 |}.

Definition nan_request : CreateProductRequest.t :=
  {| CreateProductRequest.Name := "Widget";
     CreateProductRequest.Description := "";
     CreateProductRequest.Price := S754_nan;
     CreateProductRequest.Category := "tools";
     CreateProductRequest.SKU := "W-1";
     CreateProductRequest.Stock := 5 |}.

Definition nameless_request : CreateProductRequest.t :=
  {| CreateProductRequest.Name := "";
     CreateProductRequest.Description := "";
     CreateProductRequest.Price := price_12_50;
     CreateProductRequest.Category := "tools";
     CreateProductRequest.SKU := "W-1";
     CreateProductRequest.Stock := 5 |}.

Definition gadget (active : bool) : Product :=
  {| ID := "id2"; Name := "Gadget"; Description := "hidden"; Price := price_50;
     Category := "tools"; SKU := "G-1"; Stock := 0; IsActive := active;
     CreatedAt := 30; UpdatedAt := 40 |}.

Definition widget (active : bool) : Product :=
  {| ID := "id1"; Name := "Widget"; Description := ""; Price := price_12_50;
     Category := "tools"; SKU := "W-1"; Stock := 5; IsActive := active;
     CreatedAt := 10; UpdatedAt := 20 |}.

Definition only_price (price : float64) : UpdateProductRequest.t :=
  {| UpdateProductRequest.Name := None;
     UpdateProductRequest.Description := None;
     UpdateProductRequest.Price := Some price;
     UpdateProductRequest.Category := None;
     UpdateProductRequest.SKU := None;
     UpdateProductRequest.Stock := None;
     UpdateProductRequest.IsActive := None |}.

(** A table that answers every call. *)
Definition table_of (items : list Product) : DynamoDB :=
  {| Table := list_to_map ((λ p, (ID p, p)) <$> items);
     Trace := [];
     Faults := λ _, None |}.

(** A clock too coarse to tell two consecutive readings apart, and a clock
    that is set back by 50 units after its first reading. *)
Definition stalled_env : Env :=
  {| Clock := λ _, 100; NowCalls := 0; Entropy := λ n, Z.of_nat n; UuidCalls := 0 |}.
Definition set_back_env : Env :=
  {| Clock := λ n, if n is O then 100 else 50; NowCalls := 0;
     Entropy := λ n, Z.of_nat n; UuidCalls := 0 |}.

(** NewProduct followed by an Update that carries no field: the product
    as created and as updated. *)
Definition created_then_touched (env : Env) : option (Product * Product) :=
  match NewProduct widget_request env with
  | (env1, Ok p) =>
      match models.Update p UpdateProductRequest.empty env1 with
      | (_, Ok p') => Some (p, p')
      | (_, Err _) => None
      end
  | (_, Err _) => None
  end.

(** A mock that finds [stored] under its id and accepts every write. *)
Definition mock_with (stored : Product) : MockProductRepository :=
  {| OnCreate := λ _, Ok tt;
     OnGetByID := λ id, Ok (if bool_decide (id = ID stored) then Some stored else None);
     OnGetAll := Ok [stored];
     OnGetByCategory := λ _, Ok [stored];
     OnUpdate := λ _, Ok tt;
     OnDelete := λ _, Ok tt;
     Calls := [] |}.

End samples.

(* ===================================================================== *)
(** ** package handlers and the binding tags *)
(* ===================================================================== *)

Module binding.

(** The [binding] tags of CreateProductRequest, as gin's validator reads
    them once the JSON body has been decoded: [required] refuses the zero
    value of the field's type, [gt=0] and [gte=0] compare a number with 0.
    (Whether negative zero counts as a zero value makes no difference to
    the verdict: [gt=0] refuses both zeros.) *)
Definition required_string (s : string) : bool := negb (bool_decide (s = "")).
Definition required_float64 (x : float64) : bool :=
  match x with
  | S754_zero _ => false
  | _ => true
  end.
Definition required_int (n : Z) : bool := negb (n =? 0).
Definition gt0 (x : float64) : bool := SFltb (S754_zero false) x.
Definition gte0 (n : Z) : bool := 0 <=? n.

(** No field of the request fails one of its tags. *)
Definition accepts (req : CreateProductRequest.t) : bool :=
  required_string (CreateProductRequest.Name req) &&
  (required_float64 (CreateProductRequest.Price req) &&
   gt0 (CreateProductRequest.Price req)) &&
  required_string (CreateProductRequest.Category req) &&
  required_string (CreateProductRequest.SKU req) &&
  (required_int (CreateProductRequest.Stock req) &&
   gte0 (CreateProductRequest.Stock req)).

End binding.

Module handlers.

(** net/http status codes *)
Definition StatusOK : Z := 200.
Definition StatusCreated : Z := 201.
Definition StatusBadRequest : Z := 400.
Definition StatusNotFound : Z := 404.
Definition StatusInternalServerError : Z := 500.

(** What the handlers put in a gin.H. *)
Inductive Value : Type :=
| Str (s : string)
| Int (n : Z)
| Products (products : list Product).

(** The object handed to c.JSON: a product, or a gin.H. *)
Inductive Body : Type :=
| ProductJSON (product : Product)
| H (fields : gmap string Value).

(** The one c.JSON(status, obj) a handler makes. *)
Record Response : Type := {
  Status : Z;
  Payload : Body
}.

Definition JSON (status : Z) (obj : Body) : Response :=
  {| Status := status; Payload := obj |}.

Section ProductHandler.

(** type ProductHandler struct { service service.ProductService }.  What
    the handler reads from the gin.Context is an argument: the path
    parameter, the query parameter, or the outcome of ShouldBindJSON (the
    error, or the request it has decoded). *)
Context {R : Type} {repo : ProductRepository R}.

Definition CreateProduct (bound : result CreateProductRequest.t)
    : Env * R → (Env * R) * Response :=
  λ w,
    match bound with
    | Err err =>
        (w, JSON StatusBadRequest
              (H {[ "error" := Str "Invalid request body";
                    "details" := Str (Error err) ]}))
    | Ok req =>
        match service.CreateProduct req w with
        | (w', Err err) =>
            if Is err ErrInvalidProduct then
              (w', JSON StatusBadRequest
                     (H {[ "error" := Str "Invalid product data";
                           "details" := Str (Error err) ]}))
            else
              (w', JSON StatusInternalServerError
                     (H {[ "error" := Str "Failed to create product";
                           "details" := Str (Error err) ]}))
        | (w', Ok product) => (w', JSON StatusCreated (ProductJSON product))
        end
    end.

Definition GetProduct (id : string) : Env * R → (Env * R) * Response :=
  λ w,
    if bool_decide (id = "") then
      (w, JSON StatusBadRequest (H {[ "error" := Str "Product ID is required" ]}))
    else
      match service.GetProduct id w with
      | (w', Err err) =>
          if Is err ErrProductNotFound then
            (w', JSON StatusNotFound (H {[ "error" := Str "Product not found" ]}))
          else
            (w', JSON StatusInternalServerError
                   (H {[ "error" := Str "Failed to get product";
                         "details" := Str (Error err) ]}))
      | (w', Ok product) => (w', JSON StatusOK (ProductJSON product))
      end.

Definition GetAllProducts : Env * R → (Env * R) * Response :=
  λ w,
    match service.GetAllProducts w with
    | (w', Err err) =>
        (w', JSON StatusInternalServerError
               (H {[ "error" := Str "Failed to get products";
                     "details" := Str (Error err) ]}))
    | (w', Ok products) =>
        (w', JSON StatusOK
               (H {[ "products" := Products products;
                     "count" := Int (Z.of_nat (length products)) ]}))
    end.

Definition GetProductsByCategory (category : string)
    : Env * R → (Env * R) * Response :=
  λ w,
    if bool_decide (category = "") then
      (w, JSON StatusBadRequest
            (H {[ "error" := Str "Category query parameter is required" ]}))
    else
      match service.GetProductsByCategory category w with
      | (w', Err err) =>
          (w', JSON StatusInternalServerError
                 (H {[ "error" := Str "Failed to get products by category";
                       "details" := Str (Error err) ]}))
      | (w', Ok products) =>
          (w', JSON StatusOK
                 (H {[ "products" := Products products;
                       "category" := Str category;
                       "count" := Int (Z.of_nat (length products)) ]}))
      end.

Definition UpdateProduct (id : string) (bound : result UpdateProductRequest.t)
    : Env * R → (Env * R) * Response :=
  λ w,
    if bool_decide (id = "") then
      (w, JSON StatusBadRequest (H {[ "error" := Str "Product ID is required" ]}))
    else
      match bound with
      | Err err =>
          (w, JSON StatusBadRequest
                (H {[ "error" := Str "Invalid request body";
                      "details" := Str (Error err) ]}))
      | Ok req =>
          match service.UpdateProduct id req w with
          | (w', Err err) =>
              if Is err ErrProductNotFound then
                (w', JSON StatusNotFound (H {[ "error" := Str "Product not found" ]}))
              else if Is err ErrInvalidProduct then
                (w', JSON StatusBadRequest
                       (H {[ "error" := Str "Invalid product data";
                             "details" := Str (Error err) ]}))
              else
                (w', JSON StatusInternalServerError
                       (H {[ "error" := Str "Failed to update product";
                             "details" := Str (Error err) ]}))
          | (w', Ok product) => (w', JSON StatusOK (ProductJSON product))
          end
      end.

Definition DeleteProduct (id : string) : Env * R → (Env * R) * Response :=
  λ w,
    if bool_decide (id = "") then
      (w, JSON StatusBadRequest (H {[ "error" := Str "Product ID is required" ]}))
    else
      match service.DeleteProduct id w with
      | (w', Err err) =>
          if Is err ErrProductNotFound then
            (w', JSON StatusNotFound (H {[ "error" := Str "Product not found" ]}))
          else
            (w', JSON StatusInternalServerError
                   (H {[ "error" := Str "Failed to delete product";
                         "details" := Str (Error err) ]}))
      | (w', Ok _) =>
          (w', JSON StatusOK (H {[ "message" := Str "Product deleted successfully" ]}))
      end.

End ProductHandler.

End handlers.

(* ===================================================================== *)
(** ** Vocabulary for the properties of the store and of the entity *)
(* ===================================================================== *)

(** Every item sits under its own id, as in a table whose key is [id]. *)
Definition keyed_by_id (table : gmap string Product) : Prop :=
  ∀ key item, table !! key = Some item → ID item = key.

(** The calls that change the table, and those the trace holds. *)
Definition is_write (c : Call) : bool :=
  match c with
  | CallPutItem _ | CallDeleteItem _ => true
  | _ => false
  end.
Definition writes (db : DynamoDB) : list Call := List.filter is_write (Trace db).

(** No call ever fails. *)
Definition reliable (db : DynamoDB) : Prop := ∀ n, Faults db n = None.

(** From [db] to [db'] the table has only been read. *)
Definition reads_only (db db' : DynamoDB) : Prop :=
  Table db' = Table db ∧ writes db' = writes db.

(** Every call made from [db] to [db'] was answered without a failure. *)
Definition answered (db db' : DynamoDB) : Prop :=
  ∃ calls, Trace db' = (calls ++ Trace db)%list ∧ Faults db' = Faults db ∧
           ∀ i, (i < length calls)%nat → Faults db (length (Trace db) + i) = None.

(** The rules validateCreateRequest checks, read on a product. *)
Definition passes_create_rules (p : Product) : Prop :=
  Name p ≠ "" ∧ float64_le0 (Price p) = false ∧ Category p ≠ "" ∧
  SKU p ≠ "" ∧ 0 ≤ Stock p.

(** [later] laid over [earlier]: a field of [later] when it is present,
    else that of [earlier]. *)
Definition over (later earlier : UpdateProductRequest.t) : UpdateProductRequest.t :=
  {| UpdateProductRequest.Name :=
       UpdateProductRequest.Name later ∪ UpdateProductRequest.Name earlier;
     UpdateProductRequest.Description :=
       UpdateProductRequest.Description later ∪ UpdateProductRequest.Description earlier;
     UpdateProductRequest.Price :=
       UpdateProductRequest.Price later ∪ UpdateProductRequest.Price earlier;
     UpdateProductRequest.Category :=
       UpdateProductRequest.Category later ∪ UpdateProductRequest.Category earlier;
     UpdateProductRequest.SKU :=
       UpdateProductRequest.SKU later ∪ UpdateProductRequest.SKU earlier;
     UpdateProductRequest.Stock :=
       UpdateProductRequest.Stock later ∪ UpdateProductRequest.Stock earlier;
     UpdateProductRequest.IsActive :=
       UpdateProductRequest.IsActive later ∪ UpdateProductRequest.IsActive earlier |}.

(** The bits of a 16-byte read of the random source that uuid.NewRandom
    keeps: all 128 but the four it overwrites with the version (the high
    half of byte 6) and the two it overwrites with the variant (the top
    of byte 8). *)
Definition random_bits (r : Z) : Z :=
  Z.land r 0xffffffffffff0fff3fffffffffffffff.

(** A lower-case hexadecimal digit, and the number it stands for. *)
Definition is_xdigit (c : ascii) : bool :=
  bool_decide (c ∈ list_ascii_of_string "0123456789abcdef").
Definition xvalue (c : ascii) : Z :=
  let n := Z.of_nat (nat_of_ascii c) in
  if n <? 97 then n - 48 else n - 87.

(** The canonical text of a version-4 UUID of the RFC 4122 variant:
    xxxxxxxx-xxxx-4xxx-yxxx-xxxxxxxxxxxx, 36 characters, every x a
    lower-case hexadecimal digit and y one of 8, 9, a, b. *)
Definition is_uuid4_text (s : string) : bool :=
  bool_decide (String.length s = 36%nat) &&
  forallb (λ i, match String.get i s with
                | Some c => if bool_decide (i ∈ [8; 13; 18; 23]%nat)
                            then bool_decide (c = "-"%char)
                            else is_xdigit c
                | None => false
                end) (seq 0 36) &&
  bool_decide (String.get 14 s = Some "4"%char) &&
  match String.get 19 s with
  | Some c => bool_decide (c ∈ ["8"; "9"; "a"; "b"]%char)
  | None => false
  end.

Module more_samples.

(** A random source whose first read is 0123456789abcdef0123456789abcdef
    and whose reads then differ in the last byte. *)
Definition hex_env : Env :=
  {| Clock := samples.ticking 1000; NowCalls := 0;
     Entropy := λ n, 0x0123456789abcdef0123456789abcdef + Z.of_nat n;
     UuidCalls := 0 |}.

Definition deactivate : UpdateProductRequest.t :=
  {| UpdateProductRequest.Name := None;
     UpdateProductRequest.Description := None;
     UpdateProductRequest.Price := None;
     UpdateProductRequest.Category := None;
     UpdateProductRequest.SKU := None;
     UpdateProductRequest.Stock := None;
     UpdateProductRequest.IsActive := Some false |}.

Definition rename (name : string) : UpdateProductRequest.t :=
  {| UpdateProductRequest.Name := Some name;
     UpdateProductRequest.Description := None;
     UpdateProductRequest.Price := None;
     UpdateProductRequest.Category := None;
     UpdateProductRequest.SKU := None;
     UpdateProductRequest.Stock := None;
     UpdateProductRequest.IsActive := None |}.

(** A request the service accepts and the binding tags refuse. *)
Definition out_of_stock_request : CreateProductRequest.t :=
  {| CreateProductRequest.Name := "Widget";
     CreateProductRequest.Description := "";
     CreateProductRequest.Price := samples.price_12_50;
     CreateProductRequest.Category := "tools";
     CreateProductRequest.SKU := "W-1";
     CreateProductRequest.Stock := 0 |}.

(** A table in which call number [n] fails and every other call succeeds. *)
Definition failing_at (n : nat) (items : list Product) : DynamoDB :=
  {| Table := list_to_map ((λ p, (ID p, p)) <$> items);
     Trace := [];
     Faults := λ i, if bool_decide (i = n) then Some "ProvisionedThroughputExceededException"
                    else None |}.

End more_samples.

(* ===================================================================== *)
(** ** Entity module: NewProduct and Update *)
(* ===================================================================== *)

Section entity.

Implicit Types (p : Product) (env : Env).

Lemma Update_eq p req env :
  models.Update p req env = (tick env, Ok (merged (now_of env) p req)).
Proof. reflexivity. Qed.

Lemma NewProduct_eq req env :
  NewProduct req env =
  (draw (tick env),
   Ok {| ID := uuid.String_ (uuid.NewRandom (Entropy env (UuidCalls env)));
         Name := CreateProductRequest.Name req;
         Description := CreateProductRequest.Description req;
         Price := CreateProductRequest.Price req;
         Category := CreateProductRequest.Category req;
         SKU := CreateProductRequest.SKU req;
         Stock := CreateProductRequest.Stock req;
         IsActive := true;
         CreatedAt := now_of env;
         UpdatedAt := now_of env |}).
Proof. reflexivity. Qed.

Lemma NewRandom_length r : length (uuid.NewRandom r) = 16%nat.
Proof. unfold uuid.NewRandom. by rewrite !length_alter, length_fmap, length_seq. Qed.

Lemma encodeHex_length bs rest :
  String.length (uuid.encodeHex bs rest) = (2 * length bs + String.length rest)%nat.
Proof. induction bs as [|b bs IH]; simpl; [done|]. rewrite IH. lia. Qed.

(** The text of a UUID is 36 characters long. *)
Lemma String_length (u : uuid.UUID) :
  length u = 16%nat → String.length (uuid.String_ u) = 36%nat.
Proof.
  intros Hu. unfold uuid.String_.
  repeat (rewrite encodeHex_length; simpl String.length).
  rewrite !length_take, !length_drop, Hu. reflexivity.
Qed.

(** Whatever its argument, the text of a UUID contains the dashes. *)
Lemma String_nonempty (u : uuid.UUID) : uuid.String_ u ≠ "".
Proof.
  intros Heq. apply (f_equal String.length) in Heq. revert Heq.
  unfold uuid.String_. rewrite encodeHex_length. simpl. lia.
Qed.

(** *** The text of a version-4 UUID *)

Lemma forall_below (n : nat) (P : Z → Prop) :
  Forall P (Z.of_nat <$> seq 0 n) → ∀ v, 0 ≤ v < Z.of_nat n → P v.
Proof.
  rewrite Forall_forall. intros HP v Hv. apply HP, list_elem_of_fmap.
  exists (Z.to_nat v). split; [lia|]. apply elem_of_seq. lia.
Qed.

Lemma xdigit_is_xdigit n : 0 ≤ n < 16 → is_xdigit (uuid.xdigit n) = true.
Proof.
  revert n. apply (forall_below 16 (λ n, is_xdigit (uuid.xdigit n) = true)).
  by repeat constructor.
Qed.

Lemma xvalue_xdigit n : 0 ≤ n < 16 → xvalue (uuid.xdigit n) = n.
Proof.
  revert n. apply (forall_below 16 (λ n, xvalue (uuid.xdigit n) = n)).
  by repeat constructor.
Qed.

Lemma xdigit_inj m n :
  0 ≤ m < 16 → 0 ≤ n < 16 → uuid.xdigit m = uuid.xdigit n → m = n.
Proof.
  intros Hm Hn Heq. rewrite <-(xvalue_xdigit m), <-(xvalue_xdigit n) by done.
  by rewrite Heq.
Qed.

Lemma low_nibble_range b : 0 ≤ Z.land b 15 < 16.
Proof. change 15 with (Z.ones 4). rewrite Z.land_ones by lia. apply Z.mod_pos_bound. lia. Qed.

Lemma high_nibble_range b : 0 ≤ b < 256 → 0 ≤ Z.shiftr b 4 < 16.
Proof.
  intros Hb. rewrite Z.shiftr_div_pow2 by lia. change (2 ^ 4) with 16.
  split; [apply Z.div_pos; lia|apply Z.div_lt_upper_bound; lia].
Qed.

Lemma byte_of_nibbles b : b = 16 * Z.shiftr b 4 + Z.land b 15.
Proof.
  change 15 with (Z.ones 4). rewrite Z.land_ones, Z.shiftr_div_pow2 by lia.
  apply Z.div_mod. lia.
Qed.

Lemma byte_at_range r i : 0 ≤ uuid.byte_at r i < 256.
Proof.
  unfold uuid.byte_at. change 255 with (Z.ones 8). rewrite Z.land_ones by lia.
  apply Z.mod_pos_bound. lia.
Qed.

(** The sixteen bytes of uuid.NewRandom. *)
Lemma NewRandom_eq r :
  uuid.NewRandom r =
  [uuid.byte_at r 0; uuid.byte_at r 1; uuid.byte_at r 2; uuid.byte_at r 3;
   uuid.byte_at r 4; uuid.byte_at r 5;
   Z.lor (Z.land (uuid.byte_at r 6) 15) 64; uuid.byte_at r 7;
   Z.lor (Z.land (uuid.byte_at r 8) 63) 128; uuid.byte_at r 9;
   uuid.byte_at r 10; uuid.byte_at r 11; uuid.byte_at r 12; uuid.byte_at r 13;
   uuid.byte_at r 14; uuid.byte_at r 15].
Proof. reflexivity. Qed.

(** Byte 6 reads 4x and byte 8 reads 8x, 9x, ax or bx. *)
Lemma version_byte b :
  Z.shiftr (Z.lor (Z.land b 15) 64) 4 = 4 ∧
  Z.land (Z.lor (Z.land b 15) 64) 15 = Z.land b 15.
Proof.
  pose proof (low_nibble_range b) as Hb. revert Hb. generalize (Z.land b 15).
  apply (forall_below 16 (λ v, Z.shiftr (Z.lor v 64) 4 = 4 ∧ Z.land (Z.lor v 64) 15 = v)).
  by repeat constructor.
Qed.

Lemma variant_byte b :
  Z.shiftr (Z.lor (Z.land b 63) 128) 4 ∈ [8; 9; 10; 11] ∧
  Z.land (Z.lor (Z.land b 63) 128) 63 = Z.land b 63 ∧
  0 ≤ Z.lor (Z.land b 63) 128 < 256.
Proof.
  assert (0 ≤ Z.land b 63 < 64) as Hb.
  { change 63 with (Z.ones 6). rewrite Z.land_ones by lia. apply Z.mod_pos_bound. lia. }
  revert Hb. generalize (Z.land b 63).
  apply (forall_below 64 (λ v, Z.shiftr (Z.lor v 128) 4 ∈ [8; 9; 10; 11] ∧
                               Z.land (Z.lor v 128) 63 = v ∧ 0 ≤ Z.lor v 128 < 256)).
  repeat constructor; vm_compute; try done; set_solver.
Qed.

Lemma version_byte_range b : 0 ≤ Z.lor (Z.land b 15) 64 < 256.
Proof.
  pose proof (low_nibble_range b) as Hb. revert Hb. generalize (Z.land b 15).
  apply (forall_below 16 (λ v, 0 ≤ Z.lor v 64 < 256)).
  repeat constructor; by vm_compute.
Qed.

Lemma NewRandom_bytes r : Forall (λ b, 0 ≤ b < 256) (uuid.NewRandom r).
Proof.
  rewrite NewRandom_eq.
  repeat constructor;
    first [apply byte_at_range | apply version_byte_range | apply variant_byte].
Qed.

(** Two hexadecimal digits tell the byte they were written from. *)
Lemma encodeHex_inj bs1 bs2 rest1 rest2 :
  length bs1 = length bs2 →
  Forall (λ b, 0 ≤ b < 256) bs1 → Forall (λ b, 0 ≤ b < 256) bs2 →
  uuid.encodeHex bs1 rest1 = uuid.encodeHex bs2 rest2 →
  bs1 = bs2 ∧ rest1 = rest2.
Proof.
  revert bs2. induction bs1 as [|b1 bs1 IH]; intros [|b2 bs2] Hlen H1 H2 Heq;
    try discriminate Hlen; [done|].
  apply Forall_cons in H1 as [Hb1 H1]. apply Forall_cons in H2 as [Hb2 H2].
  simpl in Heq. injection Heq as Hhi Hlo Heq.
  apply xdigit_inj in Hhi; [|by apply high_nibble_range..].
  apply xdigit_inj in Hlo; [|by apply low_nibble_range..].
  destruct (IH bs2) as [-> ->]; [by injection Hlen|done..|].
  split; [|done]. f_equal.
  rewrite (byte_of_nibbles b1), (byte_of_nibbles b2). by rewrite Hhi, Hlo.
Qed.

(** The text of a UUID tells its bytes. *)
Lemma String_inj (u1 u2 : uuid.UUID) :
  length u1 = 16%nat → length u2 = 16%nat →
  Forall (λ b, 0 ≤ b < 256) u1 → Forall (λ b, 0 ≤ b < 256) u2 →
  uuid.String_ u1 = uuid.String_ u2 → u1 = u2.
Proof.
  intros Hl1 Hl2 H1 H2 Heq.
  rewrite <-(take_drop 4 u1), <-(take_drop 4 u2).
  rewrite <-(take_drop 2 (drop 4 u1)), <-(take_drop 2 (drop 4 u2)).
  rewrite <-(take_drop 2 (drop 2 (drop 4 u1))), <-(take_drop 2 (drop 2 (drop 4 u2))).
  rewrite <-(take_drop 2 (drop 2 (drop 2 (drop 4 u1)))),
          <-(take_drop 2 (drop 2 (drop 2 (drop 4 u2)))).
  rewrite !drop_drop. simpl Nat.add.
  rewrite <-(take_ge (drop 10 u1) 6), <-(take_ge (drop 10 u2) 6)
    by (rewrite length_drop; lia).
  unfold uuid.String_ in Heq.
  repeat match type of Heq with
  | uuid.encodeHex _ _ = uuid.encodeHex _ _ =>
      apply encodeHex_inj in Heq as [-> Heq];
        [|rewrite ?length_take, ?length_drop; lia
         |by auto using Forall_take, Forall_drop..]
  | String _ _ = String _ _ => injection Heq as Heq
  end.
  done.
Qed.

(** uuid.New().String() is always the canonical text of a version-4 UUID. *)
Lemma String_NewRandom_is_uuid4_text r :
  is_uuid4_text (uuid.String_ (uuid.NewRandom r)) = true.
Proof.
  rewrite NewRandom_eq.
  destruct (version_byte (uuid.byte_at r 6)) as [Hversion _].
  destruct (variant_byte (uuid.byte_at r 8)) as (Hvariant & _ & _).
  unfold is_uuid4_text.
  cbn -[uuid.xdigit Z.shiftr Z.land Z.lor uuid.byte_at is_xdigit].
  rewrite !xdigit_is_xdigit by
    first [apply low_nibble_range
          |apply high_nibble_range;
             first [apply byte_at_range|apply version_byte_range|apply variant_byte]].
  rewrite Hversion. revert Hvariant.
  generalize (Z.shiftr (Z.lor (Z.land (uuid.byte_at r 8) 63) 128) 4). intros v Hv.
  repeat (apply elem_of_cons in Hv as [->|Hv]); try by vm_compute.
  by apply elem_of_nil in Hv.
Qed.

(** *** Which reads of the random source give the same UUID *)

Lemma byte_at_land a b i :
  uuid.byte_at (Z.land a b) i = Z.land (uuid.byte_at a i) (uuid.byte_at b i).
Proof.
  unfold uuid.byte_at. rewrite Z.shiftr_land. apply Z.bits_inj'. intros n _.
  rewrite !Z.land_spec. by repeat destruct (Z.testbit _ n).
Qed.

Lemma byte_at_255 r i : Z.land (uuid.byte_at r i) 255 = uuid.byte_at r i.
Proof. unfold uuid.byte_at. by rewrite <-Z.land_assoc. Qed.

Lemma byte_at_testbit r i k :
  0 ≤ k < 8 →
  Z.testbit (uuid.byte_at r i) k = Z.testbit r (8 * (15 - Z.of_nat i) + k).
Proof.
  intros Hk. unfold uuid.byte_at. rewrite Z.land_spec, Z.shiftr_spec by lia.
  change 255 with (Z.ones 8). rewrite Z.ones_spec_low, andb_true_r by lia.
  f_equal. lia.
Qed.

(** The forced bits of a read do not reach the UUID. *)
Lemma NewRandom_random_bits r : uuid.NewRandom (random_bits r) = uuid.NewRandom r.
Proof.
  rewrite !NewRandom_eq. unfold random_bits. rewrite !byte_at_land.
  repeat match goal with
  | |- context [uuid.byte_at (Zpos ?m) ?i] =>
      let v := eval vm_compute in (uuid.byte_at (Zpos m) i) in
      change (uuid.byte_at (Zpos m) i) with v
  end.
  rewrite !byte_at_255, <-!Z.land_assoc. reflexivity.
Qed.

(** The bits it keeps can be read off the UUID. *)
Lemma random_bits_bytes r1 r2 i :
  (i < 16)%nat → uuid.NewRandom r1 = uuid.NewRandom r2 →
  uuid.byte_at (random_bits r1) i = uuid.byte_at (random_bits r2) i.
Proof.
  intros Hi. rewrite !NewRandom_eq. intros Heq.
  injection Heq as H0 H1 H2 H3 H4 H5 H6 H7 H8 H9 H10 H11 H12 H13 H14 H15.
  apply (f_equal (λ b, Z.land b 15)) in H6.
  rewrite !(proj2 (version_byte _)) in H6.
  apply (f_equal (λ b, Z.land b 63)) in H8.
  rewrite !(proj1 (proj2 (variant_byte _))) in H8.
  unfold random_bits. rewrite !byte_at_land.
  do 16 (destruct i as [|i]; [vm_compute (uuid.byte_at (Zpos _) _);
                               rewrite ?byte_at_255; congruence|]).
  lia.
Qed.

Lemma random_bits_of_NewRandom r1 r2 :
  uuid.NewRandom r1 = uuid.NewRandom r2 → random_bits r1 = random_bits r2.
Proof.
  intros Heq. apply Z.bits_inj'. intros n Hn.
  destruct (decide (n < 128)) as [Hlt|Hge].
  - replace n with (8 * (15 - Z.of_nat (Z.to_nat (15 - n / 8))) + n mod 8)
      by (Z.div_mod_to_equations; lia).
    rewrite <-!byte_at_testbit by (apply Z.mod_pos_bound; lia).
    rewrite (random_bits_bytes r1 r2); [done| |done].
    Z.div_mod_to_equations; lia.
  - unfold random_bits. rewrite !Z.land_spec.
    rewrite (Z.bits_above_log2 (Zpos _) n); [by rewrite !andb_false_r|done|].
    vm_compute (Z.log2 _). lia.
Qed.

(** Two reads give the same id exactly when they agree on the bits
    uuid.NewRandom keeps. *)
Lemma uuid_text_eq_iff r1 r2 :
  uuid.String_ (uuid.NewRandom r1) = uuid.String_ (uuid.NewRandom r2) ↔
  random_bits r1 = random_bits r2.
Proof.
  split.
  - intros Heq. apply random_bits_of_NewRandom.
    apply String_inj; auto using NewRandom_length, NewRandom_bytes.
  - intros Heq. by rewrite <-(NewRandom_random_bits r1), Heq, NewRandom_random_bits.
Qed.

End entity.

(** C2. Applying an update request to a product overwrites exactly the
    fields the request carries, each with the value given, and leaves
    every field the request does not carry as it was; ID and CreatedAt are
    never changed; UpdatedAt becomes the clock reading taken by the call,
    for every request, the one with no field at all included. *)
Theorem Update_overwrites_present_fields p req env :
  ∃ p', models.Update p req env = (tick env, Ok p') ∧
    Name p' = default (Name p) (UpdateProductRequest.Name req) ∧
    Description p' = default (Description p) (UpdateProductRequest.Description req) ∧
    Price p' = default (Price p) (UpdateProductRequest.Price req) ∧
    Category p' = default (Category p) (UpdateProductRequest.Category req) ∧
    SKU p' = default (SKU p) (UpdateProductRequest.SKU req) ∧
    Stock p' = default (Stock p) (UpdateProductRequest.Stock req) ∧
    IsActive p' = default (IsActive p) (UpdateProductRequest.IsActive req) ∧
    ID p' = ID p ∧
    CreatedAt p' = CreatedAt p ∧
    UpdatedAt p' = now_of env.
Proof.
  eexists. split; [apply Update_eq|].
  destruct req as [[n|] [d|] [pr|] [c|] [s|] [st|] [a|]]; simpl; done.
Qed.

(** C4. NewProduct returns, for every request (so for every valid one), a
    product whose name, description, price, category, sku and stock are
    the request's; whose isActive is true; whose createdAt and updatedAt
    are both the clock reading taken by the call; and whose id is
    non-empty and freshly generated: it is the canonical 36-character text
    of a version-4 UUID, written from one read of the random source that
    the call consumes (the read counter advances, the source is otherwise
    as it was), and it tells that read from every other, the id of any
    other run of NewProduct being the same exactly when the two reads
    agree on the 122 bits a version-4 UUID keeps.  So the next call,
    which is given the next read, returns another id unless the source
    repeats itself on those bits. *)
Theorem NewProduct_fresh_active_product req env :
  ∃ p env', NewProduct req env = (env', Ok p) ∧
    ID p ≠ "" ∧
    String.length (ID p) = 36%nat ∧
    is_uuid4_text (ID p) = true ∧
    ID p = uuid.String_ (uuid.NewRandom (Entropy env (UuidCalls env))) ∧
    UuidCalls env' = S (UuidCalls env) ∧
    Entropy env' = Entropy env ∧
    (∀ req2 env2 p2, (NewProduct req2 env2).2 = Ok p2 →
       (ID p2 = ID p ↔
        random_bits (Entropy env2 (UuidCalls env2)) =
        random_bits (Entropy env (UuidCalls env)))) ∧
    (∀ req2, ∃ p2 env2, NewProduct req2 env' = (env2, Ok p2) ∧
       (ID p2 = ID p ↔
        random_bits (Entropy env (S (UuidCalls env))) =
        random_bits (Entropy env (UuidCalls env)))) ∧
    Name p = CreateProductRequest.Name req ∧
    Description p = CreateProductRequest.Description req ∧
    Price p = CreateProductRequest.Price req ∧
    Category p = CreateProductRequest.Category req ∧
    SKU p = CreateProductRequest.SKU req ∧
    Stock p = CreateProductRequest.Stock req ∧
    IsActive p = true ∧
    CreatedAt p = UpdatedAt p ∧
    CreatedAt p = now_of env.
Proof.
  do 2 eexists. split; [apply NewProduct_eq|]. cbn [ID].
  split; [apply String_nonempty|].
  split; [apply String_length, NewRandom_length|].
  split; [apply String_NewRandom_is_uuid4_text|].
  split; [done|]. split; [done|]. split; [done|].
  split; [|split; [|done]].
  - intros req2 env2 p2. rewrite NewProduct_eq. intros [= <-]. cbn [ID].
    apply uuid_text_eq_iff.
  - intros req2. do 2 eexists. split; [apply NewProduct_eq|]. cbn [ID].
    apply uuid_text_eq_iff.
Qed.

Lemma NewProduct_fresh_active_product_witness :
  ∃ p1 env1 p2 env2,
    NewProduct samples.widget_request more_samples.hex_env = (env1, Ok p1) ∧
    NewProduct samples.widget_request env1 = (env2, Ok p2) ∧
    ID p1 = "01234567-89ab-4def-8123-456789abcdef" ∧
    ID p2 = "01234567-89ab-4def-8123-456789abcdf0" ∧
    ID p2 ≠ ID p1.
Proof.
  destruct (NewProduct_fresh_active_product samples.widget_request
              more_samples.hex_env)
    as (p1 & env1 & Hrun1 & _ & _ & _ & _ & _ & _ & _ & Hnext & _).
  destruct (Hnext samples.widget_request) as (p2 & env2 & Hrun2 & Hsame).
  exists p1, env1, p2, env2. split; [done|]. split; [done|].
  rewrite NewProduct_eq in Hrun1. injection Hrun1 as <- <-.
  rewrite NewProduct_eq in Hrun2. injection Hrun2 as <- <-.
  split; [by vm_compute|]. split; [by vm_compute|].
  intros Heq. apply Hsame in Heq. by vm_compute in Heq.
Defined.

(* ===================================================================== *)
(** ** The service over any repository *)
(* ===================================================================== *)

Section any_repository.

Context {R : Type} {repo : ProductRepository R}.
Implicit Types (env : Env) (r : R) (p : Product).

(** The paths through UpdateProduct, by what the repository answers. *)
Lemma UpdateProduct_paths id req env r :
  UpdateProduct id req (env, r) =
  if bool_decide (id = "") then ((env, r), Err id_cannot_be_empty)
  else match GetByID id r with
       | (r1, Err e) =>
           ((env, r1), Err (Errorf_text_w "failed to get product for update" e))
       | (r1, Ok None) => ((env, r1), Err ErrProductNotFound)
       | (r1, Ok (Some p)) =>
           match validateUpdateRequest req with
           | Some err => ((env, r1), Err (invalid_product err))
           | None =>
               match repository.Update (merged (now_of env) p req) r1 with
               | (r2, Ok _) => ((tick env, r2), Ok (merged (now_of env) p req))
               | (r2, Err e) =>
                   ((tick env, r2), Err (Errorf_text_w "failed to update product" e))
               end
           end
       end.
Proof.
  unfold UpdateProduct. case_bool_decide; [done|].
  unfold bind, wrapping, on_snd, on_fst, throw, ret; simpl.
  destruct (GetByID id r) as [r1 [[p|]|e]]; simpl; try done.
  destruct (validateUpdateRequest req) as [err|]; simpl.
  { done. }
  fold (merged (now_of env) p req).
  by destruct (repository.Update _ r1) as [r2 [[]|e]].
Qed.

Lemma CreateProduct_paths req env r :
  CreateProduct req (env, r) =
  match validateCreateRequest req with
  | Some err => ((env, r), Err (invalid_product err))
  | None =>
      match NewProduct req env with
      | (env', Ok p) =>
          match Create p r with
          | (r', Ok _) => ((env', r'), Ok p)
          | (r', Err e) => ((env', r'), Err (Errorf_text_w "failed to create product" e))
          end
      | (env', Err e) => ((env', r), Err e)
      end
  end.
Proof.
  unfold CreateProduct. destruct (validateCreateRequest req) as [err|]; [done|].
  unfold bind, wrapping, on_snd, on_fst, throw, ret. cbn [fst snd].
  rewrite NewProduct_eq. cbn [fst snd].
  by destruct (Create _ r) as [r' [[]|e]].
Qed.

Lemma GetProduct_paths id env r :
  GetProduct id (env, r) =
  if bool_decide (id = "") then ((env, r), Err id_cannot_be_empty)
  else match GetByID id r with
       | (r1, Err e) => ((env, r1), Err (Errorf_text_w "failed to get product" e))
       | (r1, Ok None) => ((env, r1), Err ErrProductNotFound)
       | (r1, Ok (Some p)) => ((env, r1), Ok p)
       end.
Proof.
  unfold GetProduct. case_bool_decide; [done|].
  unfold bind, wrapping, on_snd, throw, ret; simpl.
  by destruct (GetByID id r) as [r1 [[p|]|e]].
Qed.

Lemma DeleteProduct_paths id env r :
  DeleteProduct id (env, r) =
  if bool_decide (id = "") then ((env, r), Err id_cannot_be_empty)
  else match GetByID id r with
       | (r1, Err e) =>
           ((env, r1), Err (Errorf_text_w "failed to get product for deletion" e))
       | (r1, Ok None) => ((env, r1), Err ErrProductNotFound)
       | (r1, Ok (Some _)) =>
           match Delete id r1 with
           | (r2, Ok _) => ((env, r2), Ok tt)
           | (r2, Err e) => ((env, r2), Err (Errorf_text_w "failed to delete product" e))
           end
       end.
Proof.
  unfold DeleteProduct. case_bool_decide; [done|].
  unfold bind, wrapping, on_snd, throw, ret; simpl.
  destruct (GetByID id r) as [r1 [[p|]|e]]; simpl; try done.
  by destruct (Delete id r1) as [r2 [[]|e]].
Qed.

Lemma GetAllProducts_paths env r :
  GetAllProducts (env, r) =
  match GetAll r with
  | (r1, Ok products) => ((env, r1), Ok products)
  | (r1, Err e) => ((env, r1), Err (Errorf_text_w "failed to get products" e))
  end.
Proof.
  unfold GetAllProducts, bind, wrapping, on_snd, ret; simpl.
  by destruct (GetAll r) as [r1 [ps|e]].
Qed.

Lemma GetProductsByCategory_paths category env r :
  GetProductsByCategory category (env, r) =
  if bool_decide (category = "") then
    ((env, r), Err (Errorf_w_text ErrInvalidProduct "category cannot be empty"))
  else match GetByCategory category r with
       | (r1, Ok products) => ((env, r1), Ok products)
       | (r1, Err e) =>
           ((env, r1), Err (Errorf_text_w "failed to get products by category" e))
       end.
Proof.
  unfold GetProductsByCategory. case_bool_decide; [done|].
  unfold bind, wrapping, on_snd, ret; simpl.
  by destruct (GetByCategory category r) as [r1 [ps|e]].
Qed.

End any_repository.

(* ===================================================================== *)
(** ** The DynamoDB-backed repository *)
(* ===================================================================== *)

Lemma Table_after c table db : Table (after c table db) = table.
Proof. reflexivity. Qed.

Lemma no_fault_for_next k db :
  no_fault_for (S k) db → next_fault db = None.
Proof.
  intros Hk. unfold next_fault. rewrite <-(Nat.add_0_r (length _)). apply Hk. lia.
Qed.

Lemma no_fault_for_after k c table db :
  no_fault_for (S k) db → no_fault_for k (after c table db).
Proof.
  intros Hk i Hi. simpl. rewrite <-Nat.add_succ_r. apply Hk. lia.
Qed.

Lemma no_fault_for_le k k' db :
  (k' ≤ k)%nat → no_fault_for k db → no_fault_for k' db.
Proof. intros Hle Hk i Hi. apply Hk. lia. Qed.

(** Let the calls that are known not to fail take effect. *)
Ltac sdk_calls_succeed :=
  cbv zeta;
  repeat (match goal with
          | |- context [Table (after ?c ?t ?db)] => rewrite (Table_after c t db)
          | H : no_fault_for (S ?k) ?db |- context [next_fault ?db] =>
              rewrite (no_fault_for_next k db H)
          | H : no_fault_for (S ?k) ?db |- context [after ?c ?t ?db] =>
              lazymatch goal with
              | _ : no_fault_for k (after c t db) |- _ => fail
              | _ => pose proof (no_fault_for_after k c t db H)
              end
          end;
          cbv zeta).

Section dynamodb_repository.

Implicit Types (db : DynamoDB) (c : Call) (item p : Product).

(** The paths through GetByID, by what the fault plan and the table hold. *)
Lemma GetByID_paths id db :
  productRepository_GetByID id db =
  match next_fault db with
  | Some text =>
      (after (CallGetItem id) (Table db) db,
       Err (Errorf_text_w "failed to get product" (awserr text)))
  | None =>
      let db1 := after (CallGetItem id) (Table db) db in
      match Table db !! id with
      | None => (db1, Ok None)
      | Some item =>
          match next_fault db1 with
          | Some text =>
              (after (CallUnmarshalMap item) (Table db) db1,
               Err (Errorf_text_w "failed to unmarshal product" (awserr text)))
          | None => (after (CallUnmarshalMap item) (Table db) db1, Ok (Some item))
          end
      end
  end.
Proof.
  unfold productRepository_GetByID, bind, wrapping, GetItem, sdk_call.
  destruct (next_fault db) as [text|]; [done|].
  destruct (Table db !! id) as [item|]; [|done].
  unfold UnmarshalMap, sdk_call, bind, wrapping, ret.
  by destruct (next_fault (after _ _ db)) as [text|].
Qed.

(** GetByID only reads. *)
Lemma GetByID_reads id db :
  Table (productRepository_GetByID id db).1 = Table db ∧
  Faults (productRepository_GetByID id db).1 = Faults db ∧
  ∀ item, CallPutItem item ∈ Trace (productRepository_GetByID id db).1 →
          CallPutItem item ∈ Trace db.
Proof.
  rewrite GetByID_paths. cbv zeta.
  destruct (next_fault db) as [text|];
    [|destruct (Table db !! id) as [item|];
      [destruct (next_fault (after (CallGetItem id) (Table db) db)) as [text|]|]];
    cbn [fst Table Faults Trace after];
    (split_and!; [done..|]; intros it; rewrite !elem_of_cons;
     intros Hin; repeat (destruct Hin as [Hin|Hin]; [done|]); done).
Qed.

Lemma Delete_paths id db :
  productRepository_Delete id db =
  match next_fault db with
  | Some text =>
      (after (CallDeleteItem id) (Table db) db,
       Err (Errorf_text_w "failed to delete product" (awserr text)))
  | None => (after (CallDeleteItem id) (delete id (Table db)) db, Ok tt)
  end.
Proof.
  unfold productRepository_Delete, bind, wrapping, DeleteItem, sdk_call, ret.
  by destruct (next_fault db) as [text|].
Qed.

Lemma Update_paths p db :
  productRepository_Update p db =
  match next_fault db with
  | Some text =>
      (after (CallMarshalMap p) (Table db) db,
       Err (Errorf_text_w "failed to marshal product" (awserr text)))
  | None =>
      let db1 := after (CallMarshalMap p) (Table db) db in
      match next_fault db1 with
      | Some text =>
          (after (CallPutItem p) (Table db) db1,
           Err (Errorf_text_w "failed to update product" (awserr text)))
      | None => (after (CallPutItem p) (<[ID p := p]> (Table db)) db1, Ok tt)
      end
  end.
Proof.
  unfold productRepository_Update, bind, wrapping, MarshalMap, sdk_call, ret.
  destruct (next_fault db) as [text|]; [done|].
  unfold PutItem, sdk_call.
  by destruct (next_fault (after _ _ db)) as [text|].
Qed.

End dynamodb_repository.

(* ===================================================================== *)
(** ** Lookup and deletion by id *)
(* ===================================================================== *)

Lemma table_of_no_fault k items : no_fault_for k (samples.table_of items).
Proof. intros i Hi. reflexivity. Qed.

Lemma id_cannot_be_empty_invalid : InvalidInputError id_cannot_be_empty.
Proof. reflexivity. Qed.

Lemma invalid_product_invalid err : InvalidInputError (invalid_product err).
Proof. reflexivity. Qed.

Lemma ErrProductNotFound_not_found : NotFoundError ErrProductNotFound.
Proof. reflexivity. Qed.

(** What the SDK reports, however often it is wrapped on the way up, is
    a PersistenceError. *)
Lemma awserr_persistence text : PersistenceError (awserr text).
Proof. by split. Qed.

Lemma Errorf_text_w_persistence text cause :
  PersistenceError cause → PersistenceError (Errorf_text_w text cause).
Proof. intros [Hinvalid Hnotfound]. split; simpl; by rewrite ?Hinvalid, ?Hnotfound. Qed.

(** C5. GetProduct on the DynamoDB-backed repository.  With an empty id
    it fails with an InvalidInputError and asks the repository nothing.
    With a non-empty id whose key is not in the table, GetByID returns
    (nil, no error) and GetProduct turns that into ErrProductNotFound.
    With a non-empty id whose key is in the table, GetProduct returns the
    stored record as it is, whatever its isActive flag, and the table is
    left as it was.  (The two last cases are for SDK calls that do not
    fail: one call when the key is absent, two when it is present.) *)
Theorem GetProduct_by_id env db id :
  (id = "" →
     GetProduct id (env, db) = ((env, db), Err id_cannot_be_empty) ∧
     InvalidInputError id_cannot_be_empty) ∧
  (id ≠ "" → Table db !! id = None → no_fault_for 1 db →
     ∃ db', productRepository_GetByID id db = (db', Ok None) ∧
            GetProduct id (env, db) = ((env, db'), Err ErrProductNotFound) ∧
            NotFoundError ErrProductNotFound ∧
            Table db' = Table db) ∧
  (id ≠ "" → ∀ p, Table db !! id = Some p → no_fault_for 2 db →
     ∃ db', GetProduct id (env, db) = ((env, db'), Ok p) ∧
            Table db' = Table db).
Proof.
  split_and!.
  - intros ->. by rewrite GetProduct_paths.
  - intros Hid Hnone Hf. rewrite GetProduct_paths, bool_decide_eq_false_2 by done.
    cbn [GetByID productRepository]. rewrite GetByID_paths, Hnone.
    sdk_calls_succeed. by eexists.
  - intros Hid p Hp Hf. rewrite GetProduct_paths, bool_decide_eq_false_2 by done.
    cbn [GetByID productRepository]. rewrite GetByID_paths, Hp.
    sdk_calls_succeed. by eexists.
Qed.

Lemma GetProduct_by_id_witness :
  (GetProduct "" (samples.env0, samples.table_of [samples.gadget false])).2
    = Err id_cannot_be_empty ∧
  (GetProduct "id1" (samples.env0, samples.table_of [samples.gadget false])).2
    = Err ErrProductNotFound ∧
  (GetProduct "id2" (samples.env0, samples.table_of [samples.gadget false])).2
    = Ok (samples.gadget false).
Proof.
  pose proof (GetProduct_by_id samples.env0
                (samples.table_of [samples.gadget false])) as H.
  split_and!.
  - destruct (H "") as (Hempty & _ & _).
    destruct (Hempty eq_refl) as [-> _]. reflexivity.
  - destruct (H "id1") as (_ & Habsent & _).
    destruct (Habsent ltac:(discriminate) eq_refl (table_of_no_fault _ _))
      as (db' & _ & -> & _).
    reflexivity.
  - destruct (H "id2") as (_ & _ & Hfound).
    destruct (Hfound ltac:(discriminate) (samples.gadget false) eq_refl
                (table_of_no_fault _ _)) as (db' & -> & _).
    reflexivity.
Defined.

(** C6. DeleteProduct on the DynamoDB-backed repository.  With an empty
    id it fails with an InvalidInputError.  With a non-empty id whose key
    is not in the table it fails with ErrProductNotFound and deletes
    nothing.  With a non-empty id whose key is in the table it succeeds
    and removes the item, and a second DeleteProduct with the same id
    then fails with ErrProductNotFound.  The repository's own Delete
    returns no error on a key that is not in the table and leaves the
    table as it was.  (All for SDK calls that do not fail.) *)
Theorem DeleteProduct_checks_existence env db id :
  (id = "" →
     DeleteProduct id (env, db) = ((env, db), Err id_cannot_be_empty) ∧
     InvalidInputError id_cannot_be_empty) ∧
  (id ≠ "" → Table db !! id = None → no_fault_for 1 db →
     ∃ db', DeleteProduct id (env, db) = ((env, db'), Err ErrProductNotFound) ∧
            NotFoundError ErrProductNotFound ∧
            Trace db' = CallGetItem id :: Trace db ∧
            Table db' = Table db) ∧
  (id ≠ "" → is_Some (Table db !! id) → no_fault_for 4 db →
     ∃ db1 db2,
       DeleteProduct id (env, db) = ((env, db1), Ok tt) ∧
       Table db1 = delete id (Table db) ∧
       DeleteProduct id (env, db1) = ((env, db2), Err ErrProductNotFound)) ∧
  (Table db !! id = None → no_fault_for 1 db →
     ∃ db', productRepository_Delete id db = (db', Ok tt) ∧
            Table db' = Table db).
Proof.
  split_and!.
  - intros ->. by rewrite DeleteProduct_paths.
  - intros Hid Hnone Hf. rewrite DeleteProduct_paths, bool_decide_eq_false_2 by done.
    cbn [GetByID productRepository]. rewrite GetByID_paths, Hnone.
    sdk_calls_succeed. by eexists.
  - intros Hid [item Hitem] Hf.
    rewrite DeleteProduct_paths, bool_decide_eq_false_2 by done.
    cbn [GetByID Delete productRepository]. rewrite GetByID_paths, Hitem.
    sdk_calls_succeed. rewrite Delete_paths. sdk_calls_succeed.
    do 2 eexists. split_and!; [done..|].
    rewrite DeleteProduct_paths, bool_decide_eq_false_2 by done.
    cbn [GetByID productRepository]. rewrite GetByID_paths.
    sdk_calls_succeed. by rewrite lookup_delete_eq.
  - intros Hnone Hf. rewrite Delete_paths. sdk_calls_succeed.
    eexists. split; [done|]. by apply delete_id.
Qed.

Lemma DeleteProduct_checks_existence_witness :
  ∃ db1 db2,
    DeleteProduct "id1" (samples.env0, samples.table_of [samples.widget true])
      = ((samples.env0, db1), Ok tt) ∧
    DeleteProduct "id1" (samples.env0, db1)
      = ((samples.env0, db2), Err ErrProductNotFound).
Proof.
  destruct (DeleteProduct_checks_existence samples.env0
              (samples.table_of [samples.widget true]) "id1")
    as (_ & _ & Htwice & _).
  destruct (Htwice ltac:(discriminate) (mk_is_Some _ _ eq_refl)
              (table_of_no_fault _ _)) as (db1 & db2 & H1 & _ & H2).
  by exists db1, db2.
Defined.

(* ===================================================================== *)
(** ** Scans *)
(* ===================================================================== *)

(** Decoding the scanned items one by one either fails or yields the
    items themselves after what was already collected; the table is only
    read. *)
Lemma unmarshal_each_ok items : ∀ acc db db' ps,
  unmarshal_each items acc db = (db', Ok ps) →
  ps = (acc ++ items)%list ∧ Table db' = Table db.
Proof.
  induction items as [|item items IH]; intros acc db db' ps; simpl.
  - unfold ret. intros [= <- <-]. by rewrite app_nil_r.
  - unfold bind, wrapping, UnmarshalMap, sdk_call.
    destruct (next_fault db) as [text|]; [done|].
    intros Heach. apply IH in Heach as [-> ->].
    by rewrite <-app_assoc.
Qed.

(** With no failing call it does yield them. *)
Lemma unmarshal_each_total items : ∀ acc db,
  no_fault_for (length items) db →
  ∃ db', unmarshal_each items acc db = (db', Ok (acc ++ items)%list).
Proof.
  induction items as [|item items IH]; intros acc db Hf; simpl.
  - eexists. by rewrite app_nil_r.
  - unfold bind, wrapping, UnmarshalMap, sdk_call.
    rewrite (no_fault_for_next _ _ Hf).
    destruct (IH (acc ++ [item])%list (after (CallUnmarshalMap item) (Table db) db))
      as [db' Hdb']; [by apply no_fault_for_after|].
    exists db'. by rewrite Hdb', <-app_assoc.
Qed.

(** A successful Scan returns items of the table that match the filter. *)
Lemma Scan_ok filter db db' items :
  Scan filter db = (db', Ok items) →
  Table db' = Table db ∧
  ∀ item, item ∈ items →
    matches filter item = true ∧ ∃ key, Table db !! key = Some item.
Proof.
  unfold Scan, sdk_call. destruct (next_fault db) as [text|]; [done|].
  intros [= <- <-]. split; [done|]. intros item.
  rewrite list_elem_of_In, filter_In, <-list_elem_of_In, list_elem_of_fmap.
  intros [([key item'] & -> & Hin) Hmatch]. split; [done|].
  exists key. by apply elem_of_map_to_list.
Qed.

Lemma GetAll_ok db db' ps :
  productRepository_GetAll db = (db', Ok ps) →
  ∀ p, p ∈ ps → IsActive p = true ∧ ∃ key, Table db !! key = Some p.
Proof.
  unfold productRepository_GetAll, bind, wrapping.
  destruct (Scan _ db) as [db1 [items|e]] eqn:Hscan; [|done].
  intros [-> _]%unmarshal_each_ok p Hp.
  apply Scan_ok in Hscan as [_ Hitems].
  destruct (Hitems p Hp) as [Hmatch Hkey]. split; [|done].
  simpl in Hmatch. rewrite andb_true_r in Hmatch.
  by apply bool_decide_eq_true in Hmatch.
Qed.

Lemma GetByCategory_ok category db db' ps :
  productRepository_GetByCategory category db = (db', Ok ps) →
  ∀ p, p ∈ ps →
    IsActive p = true ∧ Category p = category ∧ ∃ key, Table db !! key = Some p.
Proof.
  unfold productRepository_GetByCategory, bind, wrapping.
  destruct (Scan _ db) as [db1 [items|e]] eqn:Hscan; [|done].
  intros [-> _]%unmarshal_each_ok p Hp.
  apply Scan_ok in Hscan as [_ Hitems].
  destruct (Hitems p Hp) as [Hmatch Hkey]. split_and!; [..|done].
  all: simpl in Hmatch; rewrite andb_true_r in Hmatch;
    apply andb_true_iff in Hmatch as [Hc Ha];
    by apply bool_decide_eq_true in Hc, Ha.
Qed.

(** C7. Whatever the table holds: every product in a result of GetAll or
    of GetAllProducts is a stored record with isActive = true; every
    product in a result of GetByCategory or of GetProductsByCategory is a
    stored record with isActive = true and with the category asked for;
    and a stored record with isActive = false is still what GetByID
    returns for its key (when the two SDK calls this takes do not fail). *)
Theorem scans_return_active_products_only db :
  (∀ db' ps, productRepository_GetAll db = (db', Ok ps) →
     ∀ p, p ∈ ps → IsActive p = true ∧ ∃ key, Table db !! key = Some p) ∧
  (∀ env w' ps, GetAllProducts (env, db) = (w', Ok ps) →
     ∀ p, p ∈ ps → IsActive p = true ∧ ∃ key, Table db !! key = Some p) ∧
  (∀ category db' ps, productRepository_GetByCategory category db = (db', Ok ps) →
     ∀ p, p ∈ ps → IsActive p = true ∧ Category p = category ∧
                   ∃ key, Table db !! key = Some p) ∧
  (∀ category env w' ps, GetProductsByCategory category (env, db) = (w', Ok ps) →
     ∀ p, p ∈ ps → IsActive p = true ∧ Category p = category ∧
                   ∃ key, Table db !! key = Some p) ∧
  (∀ id p, Table db !! id = Some p → IsActive p = false → no_fault_for 2 db →
     ∃ db', productRepository_GetByID id db = (db', Ok (Some p)) ∧
            Table db' = Table db).
Proof.
  split_and!.
  - apply GetAll_ok.
  - intros env w' ps. rewrite GetAllProducts_paths. cbn [GetAll productRepository].
    destruct (productRepository_GetAll db) as [db1 [ps'|e]] eqn:Hall; [|done].
    intros [= _ <-]. by eapply GetAll_ok.
  - intros category db' ps. apply GetByCategory_ok.
  - intros category env w' ps. rewrite GetProductsByCategory_paths.
    case_bool_decide; [done|]. cbn [GetByCategory productRepository].
    destruct (productRepository_GetByCategory category db) as [db1 [ps'|e]] eqn:Hcat;
      [|done].
    intros [= _ <-]. by eapply GetByCategory_ok.
  - intros id p Hp _ Hf. rewrite GetByID_paths, Hp.
    sdk_calls_succeed. by eexists.
Qed.

Lemma scans_return_active_products_only_witness :
  (productRepository_GetAll
     (samples.table_of [samples.widget true; samples.gadget false])).2
    = Ok [samples.widget true] ∧
  (∀ p, p ∈ [samples.widget true] → IsActive p = true) ∧
  (productRepository_GetByCategory "tools"
     (samples.table_of [samples.widget true; samples.gadget false])).2
    = Ok [samples.widget true] ∧
  (∀ p, p ∈ [samples.widget true] → Category p = "tools") ∧
  (productRepository_GetByID "id2"
     (samples.table_of [samples.widget true; samples.gadget false])).2
    = Ok (Some (samples.gadget false)).
Proof.
  destruct (scans_return_active_products_only
              (samples.table_of [samples.widget true; samples.gadget false]))
    as (Hall & _ & Hcat & _ & Hid).
  split_and!.
  - vm_compute. reflexivity.
  - intros p Hp.
    by destruct (Hall (productRepository_GetAll (samples.table_of
                   [samples.widget true; samples.gadget false])).1
                   [samples.widget true] ltac:(vm_compute; reflexivity) p Hp).
  - vm_compute. reflexivity.
  - intros p Hp.
    by destruct (Hcat "tools" (productRepository_GetByCategory "tools"
                   (samples.table_of [samples.widget true; samples.gadget false])).1
                   [samples.widget true] ltac:(vm_compute; reflexivity) p Hp)
      as (_ & ? & _).
  - destruct (Hid "id2" (samples.gadget false) eq_refl eq_refl
                (table_of_no_fault _ _)) as (db' & -> & _).
    reflexivity.
Defined.

(* ===================================================================== *)
(** ** UpdateProduct: the empty request, and the failing paths *)
(* ===================================================================== *)

(** Over any repository: a request that carries no field passes
    validation, and when the repository finds the record and accepts the
    write, UpdateProduct hands the repository's Update the loaded record
    with only UpdatedAt changed, and returns that record. *)
Lemma UpdateProduct_empty_any_repository {R} {repo : ProductRepository R}
    env (r r1 r2 : R) id p :
  id ≠ "" →
  GetByID id r = (r1, Ok (Some p)) →
  repository.Update (set_UpdatedAt (now_of env) p) r1 = (r2, Ok tt) →
  UpdateProduct id UpdateProductRequest.empty (env, r)
    = ((tick env, r2), Ok (set_UpdatedAt (now_of env) p)).
Proof.
  intros Hid Hget Hput.
  rewrite UpdateProduct_paths, bool_decide_eq_false_2, Hget by done.
  change (merged (now_of env) p UpdateProductRequest.empty)
    with (set_UpdatedAt (now_of env) p).
  cbn [validateUpdateRequest UpdateProductRequest.empty]. by rewrite Hput.
Qed.

(** C9. A request in which every field is absent is valid, and for every
    record in the table UpdateProduct with that request succeeds (the
    four SDK calls it makes not failing): it returns the record with
    name, description, price, category, sku, stock and isActive (and id
    and createdAt) as stored and updatedAt set to the clock reading, and
    it still writes the whole record back: the last SDK call is PutItem
    of the returned record, and the table then holds it under its id. *)
Theorem UpdateProduct_empty_request env db id p :
  id ≠ "" → Table db !! id = Some p → no_fault_for 4 db →
  ∃ p' db',
    validateUpdateRequest UpdateProductRequest.empty = None ∧
    UpdateProduct id UpdateProductRequest.empty (env, db) = ((tick env, db'), Ok p') ∧
    Name p' = Name p ∧ Description p' = Description p ∧ Price p' = Price p ∧
    Category p' = Category p ∧ SKU p' = SKU p ∧ Stock p' = Stock p ∧
    IsActive p' = IsActive p ∧ ID p' = ID p ∧ CreatedAt p' = CreatedAt p ∧
    UpdatedAt p' = now_of env ∧
    (∃ earlier, Trace db' = CallPutItem p' :: earlier) ∧
    Table db' = <[ID p := p']> (Table db).
Proof.
  intros Hid Hp Hf.
  exists (set_UpdatedAt (now_of env) p). eexists.
  split; [reflexivity|]. split.
  - eapply UpdateProduct_empty_any_repository; [done|..];
      cbn [GetByID repository.Update productRepository].
    + rewrite GetByID_paths, Hp. by sdk_calls_succeed.
    + rewrite Update_paths. by sdk_calls_succeed.
  - split_and!; try reflexivity. by eexists.
Qed.

Lemma UpdateProduct_empty_request_witness :
  ∃ db',
    UpdateProduct "id1" UpdateProductRequest.empty
      (samples.env0, samples.table_of [samples.widget false])
    = ((tick samples.env0, db'), Ok (set_UpdatedAt 1000 (samples.widget false))) ∧
    Table db' !! "id1" = Some (set_UpdatedAt 1000 (samples.widget false)).
Proof.
  destruct (UpdateProduct_empty_request samples.env0
              (samples.table_of [samples.widget false]) "id1" (samples.widget false))
    as (p' & db' & _ & Hrun & _ & _ & _ & _ & _ & _ & _ & _ & _ & _ & _ & Htable);
    [discriminate|reflexivity|apply table_of_no_fault|].
  exists db'.
  assert (p' = set_UpdatedAt 1000 (samples.widget false)) as ->.
  { apply (f_equal snd) in Hrun. vm_compute in Hrun. by injection Hrun. }
  split; [done|]. rewrite Htable. apply lookup_insert_eq.
Defined.


(** Over any repository: an error from UpdateProduct has one of five
    causes, the four above and a failing write. *)
Lemma UpdateProduct_error_causes {R} {repo : ProductRepository R}
    env (r : R) id req w' e :
  UpdateProduct id req (env, r) = (w', Err e) →
  id = "" ∨
  (∃ r1 e0, GetByID id r = (r1, Err e0)) ∨
  (∃ r1, GetByID id r = (r1, Ok None)) ∨
  (∃ r1 p err, GetByID id r = (r1, Ok (Some p)) ∧
               validateUpdateRequest req = Some err) ∨
  (∃ r1 p r2 e0, GetByID id r = (r1, Ok (Some p)) ∧
                 validateUpdateRequest req = None ∧
                 repository.Update (merged (now_of env) p req) r1 = (r2, Err e0) ∧
                 e = Errorf_text_w "failed to update product" e0).
Proof.
  rewrite UpdateProduct_paths. intros Hrun.
  case_bool_decide as Hid; [by left|]. right.
  destruct (GetByID id r) as [r1 [[p|]|e0]];
    [|right; left; by eexists|left; by do 2 eexists].
  do 2 right.
  destruct (validateUpdateRequest req) as [err|]; [left; by do 3 eexists|]. right.
  destruct (repository.Update _ r1) as [r2 [[]|e0]] eqn:Hput; [done|].
  injection Hrun as _ <-. by do 4 eexists.
Qed.



(* ===================================================================== *)
(** ** Timestamps *)
(* ===================================================================== *)

(** C8, as stated, fails.  With a clock that returns the same reading
    twice, a product that is created and then updated keeps its
    updatedAt: it does not strictly increase.  With a clock that is set
    back between the two readings, the update leaves updatedAt earlier
    than createdAt. *)
Lemma updatedAt_follows_a_stalled_or_set_back_clock :
  (∃ p p', samples.created_then_touched samples.stalled_env = Some (p, p') ∧
           UpdatedAt p = 100 ∧ UpdatedAt p' = 100 ∧
           time.After (UpdatedAt p') (UpdatedAt p) = false ∧
           ¬ UpdatedAt p < UpdatedAt p') ∧
  (∃ p p', samples.created_then_touched samples.set_back_env = Some (p, p') ∧
           CreatedAt p' = 100 ∧ UpdatedAt p' = 50 ∧
           ¬ CreatedAt p' ≤ UpdatedAt p').
Proof.
  split; do 2 eexists; (split; [vm_compute; reflexivity|]); simpl;
    split_and!; (reflexivity || lia).
Qed.

(** C8, amended.  At creation updatedAt equals createdAt.  An update,
    whatever fields the request carries, leaves createdAt as it was and
    sets updatedAt to the clock reading it takes; so updatedAt is
    strictly greater than before exactly when that reading is later than
    the previous updatedAt, and updatedAt is at least createdAt exactly
    when that reading is not earlier than createdAt.  The same holds for
    the record a successful UpdateProduct returns, over any repository,
    with respect to the record the repository found. *)
Theorem timestamps_follow_the_clock :
  (∀ req env, ∃ p env',
     NewProduct req env = (env', Ok p) ∧
     CreatedAt p = now_of env ∧ UpdatedAt p = CreatedAt p) ∧
  (∀ p req env, ∃ p',
     models.Update p req env = (tick env, Ok p') ∧
     CreatedAt p' = CreatedAt p ∧
     UpdatedAt p' = now_of env ∧
     (UpdatedAt p < UpdatedAt p' ↔ UpdatedAt p < now_of env) ∧
     (CreatedAt p' ≤ UpdatedAt p' ↔ CreatedAt p ≤ now_of env)) ∧
  (∀ R (repo : ProductRepository R) id req env (r : R) w' p',
     UpdateProduct id req (env, r) = (w', Ok p') →
     ∃ r1 p, GetByID id r = (r1, Ok (Some p)) ∧
       CreatedAt p' = CreatedAt p ∧
       UpdatedAt p' = now_of env ∧
       (UpdatedAt p < UpdatedAt p' ↔ UpdatedAt p < now_of env) ∧
       (CreatedAt p' ≤ UpdatedAt p' ↔ CreatedAt p ≤ now_of env)).
Proof.
  split_and!.
  - intros req env. do 2 eexists. by rewrite NewProduct_eq.
  - intros p req env. eexists. rewrite Update_eq.
    destruct req as [[n|] [d|] [pr|] [c|] [s|] [st|] [a|]]; simpl; done.
  - intros R repo id req env r w' p'. rewrite UpdateProduct_paths.
    case_bool_decide; [done|].
    destruct (GetByID id r) as [r1 [[p|]|e]]; [|done..].
    destruct (validateUpdateRequest req); [done|].
    destruct (repository.Update _ r1) as [r2 [[]|e]]; [|done].
    intros [= _ <-]. exists r1, p. split; [done|].
    destruct req as [[n|] [d|] [pr|] [c|] [s|] [st|] [a|]]; simpl; done.
Qed.

Lemma timestamps_follow_the_clock_witness :
  ∃ p', (UpdateProduct "id1" (samples.only_price samples.price_50)
           (samples.env0, samples.mock_with (samples.widget true))).2 = Ok p' ∧
        CreatedAt p' = 10 ∧ UpdatedAt p' = 1000.
Proof.
  destruct timestamps_follow_the_clock as (_ & _ & Hsvc).
  destruct (UpdateProduct "id1" (samples.only_price samples.price_50)
              (samples.env0, samples.mock_with (samples.widget true)))
    as [w' [p'|e]] eqn:Hrun; [|by vm_compute in Hrun].
  destruct (Hsvc _ _ _ _ _ _ _ _ Hrun) as (r1 & p & Hget & Hc & Hu & _).
  exists p'. split; [done|].
  vm_compute in Hget. injection Hget as _ <-. by rewrite Hc, Hu.
Defined.

(* ===================================================================== *)
(** ** Validation *)
(* ===================================================================== *)

(** [x <= 0] is false for the numbers above zero and for NaN. *)
Lemma float64_le0_false x :
  float64_le0 x = false ↔ float64_gt0 x = true ∨ x = S754_nan.
Proof.
  destruct x as [[]|[]| |[] m e]; cbv; split; intros; try done;
    try (by left); try (by right); by destruct_or!.
Qed.

Lemma validateCreateRequest_passes req :
  validateCreateRequest req = None ↔
  CreateProductRequest.Name req ≠ "" ∧
  float64_le0 (CreateProductRequest.Price req) = false ∧
  CreateProductRequest.Category req ≠ "" ∧
  CreateProductRequest.SKU req ≠ "" ∧
  0 ≤ CreateProductRequest.Stock req.
Proof.
  unfold validateCreateRequest. split.
  - intros Hpass.
    case_bool_decide; [done|].
    destruct (float64_le0 _); [done|].
    do 2 (case_bool_decide; [done|]).
    by destruct (Z.ltb_spec (CreateProductRequest.Stock req) 0).
  - intros (Hn & -> & Hc & Hs & Hst).
    rewrite !bool_decide_eq_false_2 by done.
    destruct (Z.ltb_spec (CreateProductRequest.Stock req) 0); [lia|done].
Qed.

(** The checks of validateCreateRequest are made in the order name,
    price, category, sku, stock, and the first one that fails decides the
    error. *)
Lemma validateCreateRequest_first_violation req :
  validateCreateRequest req =
  if bool_decide (CreateProductRequest.Name req = "")
  then Some (New "product name is required")
  else if float64_le0 (CreateProductRequest.Price req)
  then Some (New "product price must be greater than 0")
  else if bool_decide (CreateProductRequest.Category req = "")
  then Some (New "product category is required")
  else if bool_decide (CreateProductRequest.SKU req = "")
  then Some (New "product SKU is required")
  else if bool_decide (CreateProductRequest.Stock req < 0)
  then Some (New "product stock cannot be negative")
  else None.
Proof.
  unfold validateCreateRequest.
  destruct (Z.ltb_spec (CreateProductRequest.Stock req) 0);
    [rewrite (bool_decide_eq_true_2 (_ < 0))|rewrite (bool_decide_eq_false_2 (_ < 0))];
    (done || lia).
Qed.

(** Over any repository that accepts the write: CreateProduct succeeds
    exactly when the request passes validateCreateRequest, and otherwise
    fails with an InvalidInputError that carries the reason. *)
Lemma CreateProduct_any_repository {R} {repo : ProductRepository R}
    req env (r : R) :
  (∀ p, ∃ r', Create p r = (r', Ok tt)) →
  ((∃ w' p, CreateProduct req (env, r) = (w', Ok p)) ↔
   validateCreateRequest req = None) ∧
  (∀ err, validateCreateRequest req = Some err →
     CreateProduct req (env, r) = ((env, r), Err (invalid_product err)) ∧
     InvalidInputError (invalid_product err) ∧
     Error (invalid_product err) = "invalid product data: " +:+ Error err).
Proof.
  intros Hwrite. rewrite CreateProduct_paths.
  destruct (validateCreateRequest req) as [err|].
  - split; [split; [by intros (? & ? & ?)|done]|]. by intros ? [= <-].
  - split; [|done]. split; [done|]. intros _. rewrite NewProduct_eq.
    destruct (Hwrite
      {| ID := uuid.String_ (uuid.NewRandom (Entropy env (UuidCalls env)));
         Name := CreateProductRequest.Name req;
         Description := CreateProductRequest.Description req;
         Price := CreateProductRequest.Price req;
         Category := CreateProductRequest.Category req;
         SKU := CreateProductRequest.SKU req;
         Stock := CreateProductRequest.Stock req;
         IsActive := true; CreatedAt := now_of env; UpdatedAt := now_of env |})
      as [r' ->].
    by do 2 eexists.
Qed.

(** A request with an empty name is refused with the reason
    "product name is required". *)
Lemma CreateProduct_nameless :
  CreateProduct samples.nameless_request
    (samples.env0, samples.mock_with (samples.widget true))
  = ((samples.env0, samples.mock_with (samples.widget true)),
     Err (invalid_product (New "product name is required"))) ∧
  Error (invalid_product (New "product name is required"))
  = "invalid product data: product name is required".
Proof. split; reflexivity. Qed.

(** C3 at a request whose price is NaN.  NaN is not greater than 0, yet
    [NaN <= 0] is false as well, so validateCreateRequest lets the request
    through; with a repository that accepts the write, CreateProduct
    returns a product whose price is NaN and has handed it to the
    repository's Create. *)
Theorem CreateProduct_accepts_NaN_price :
  float64_gt0 (CreateProductRequest.Price samples.nan_request) = false ∧
  validateCreateRequest samples.nan_request = None ∧
  ∃ w' p,
    CreateProduct samples.nan_request
      (samples.env0, samples.mock_with (samples.widget true)) = (w', Ok p) ∧
    Price p = S754_nan ∧
    Calls w'.2 = [MockCreate p].
Proof.
  split; [reflexivity|]. split; [reflexivity|].
  do 2 eexists. split; [vm_compute; reflexivity|]. split; reflexivity.
Qed.

Lemma validateUpdateRequest_passes req :
  validateUpdateRequest req = None ↔
  (∀ v, UpdateProductRequest.Price req = Some v → float64_le0 v = false) ∧
  (∀ v, UpdateProductRequest.Stock req = Some v → 0 ≤ v) ∧
  (∀ v, UpdateProductRequest.Name req = Some v → v ≠ "") ∧
  (∀ v, UpdateProductRequest.Category req = Some v → v ≠ "") ∧
  (∀ v, UpdateProductRequest.SKU req = Some v → v ≠ "").
Proof.
  unfold validateUpdateRequest. destruct req as [n d pr c s st a]; simpl. split.
  - intros Hpass.
    destruct pr as [pr|]; simpl in Hpass;
      [destruct (float64_le0 pr) eqn:Hpr; [done|]|].
    all: destruct st as [st|]; simpl in Hpass;
      [destruct (Z.ltb_spec st 0); [done|]|].
    all: destruct n as [n|]; simpl in Hpass; [case_bool_decide; [done|]|].
    all: destruct c as [c|]; simpl in Hpass; [case_bool_decide; [done|]|].
    all: destruct s as [s|]; simpl in Hpass; [case_bool_decide; [done|]|].
    all: split_and!; intros v Hv; by simplify_eq.
  - intros (Hpr & Hst & Hn & Hc & Hs).
    destruct pr as [pr|]; simpl; [rewrite (Hpr _ eq_refl)|].
    all: destruct st as [st|]; simpl;
      [specialize (Hst _ eq_refl); destruct (Z.ltb_spec st 0); [lia|]|].
    all: destruct n as [n|]; simpl;
      [rewrite bool_decide_eq_false_2 by (by apply Hn)|].
    all: destruct c as [c|]; simpl;
      [rewrite bool_decide_eq_false_2 by (by apply Hc)|].
    all: destruct s as [s|]; simpl;
      [rewrite bool_decide_eq_false_2 by (by apply Hs)|].
    all: reflexivity.
Qed.

(** Over any repository: UpdateProduct looks the record up before it
    validates the request, so an id that is not found gives
    ErrProductNotFound whatever the request holds; a request that does
    not pass validateUpdateRequest gives an InvalidInputError once the
    record has been found. *)
Lemma UpdateProduct_any_repository {R} {repo : ProductRepository R}
    id req env (r r1 : R) :
  id ≠ "" →
  (GetByID id r = (r1, Ok None) →
     UpdateProduct id req (env, r) = ((env, r1), Err ErrProductNotFound)) ∧
  (∀ p err, GetByID id r = (r1, Ok (Some p)) →
     validateUpdateRequest req = Some err →
     UpdateProduct id req (env, r) = ((env, r1), Err (invalid_product err)) ∧
     InvalidInputError (invalid_product err)) ∧
  (∀ p r2, GetByID id r = (r1, Ok (Some p)) →
     validateUpdateRequest req = None →
     repository.Update (merged (now_of env) p req) r1 = (r2, Ok tt) →
     UpdateProduct id req (env, r) = ((tick env, r2), Ok (merged (now_of env) p req))).
Proof.
  intros Hid. rewrite UpdateProduct_paths, bool_decide_eq_false_2 by done.
  split_and!.
  - by intros ->.
  - by intros p err -> ->.
  - by intros p r2 -> -> ->.
Qed.

(** C1 at a request whose only field is a price that is NaN.  The price
    is present and is not greater than 0, yet validateUpdateRequest lets
    the request through; with a repository that finds the record and
    accepts the write, UpdateProduct returns the record with its price
    set to NaN and has handed it to the repository's Update. *)
Theorem UpdateProduct_accepts_NaN_price :
  float64_gt0 S754_nan = false ∧
  validateUpdateRequest (samples.only_price S754_nan) = None ∧
  ∃ w' p,
    UpdateProduct "id1" (samples.only_price S754_nan)
      (samples.env0, samples.mock_with (samples.widget true)) = (w', Ok p) ∧
    Price p = S754_nan ∧
    Calls w'.2 = [MockUpdate p; MockGetByID "id1"].
Proof.
  split; [reflexivity|]. split; [reflexivity|].
  do 2 eexists. split; [vm_compute; reflexivity|]. split; reflexivity.
Qed.

(* ===================================================================== *)
(** ** How the operations compose on the DynamoDB-backed repository *)
(* ===================================================================== *)

Lemma Create_paths p db :
  productRepository_Create p db =
  match next_fault db with
  | Some text =>
      (after (CallMarshalMap p) (Table db) db,
       Err (Errorf_text_w "failed to marshal product" (awserr text)))
  | None =>
      let db1 := after (CallMarshalMap p) (Table db) db in
      match next_fault db1 with
      | Some text =>
          (after (CallPutItem p) (Table db) db1,
           Err (Errorf_text_w "failed to create product" (awserr text)))
      | None => (after (CallPutItem p) (<[ID p := p]> (Table db)) db1, Ok tt)
      end
  end.
Proof.
  unfold productRepository_Create, bind, wrapping, MarshalMap, sdk_call, ret.
  destruct (next_fault db) as [text|]; [done|].
  unfold PutItem, sdk_call.
  by destruct (next_fault (after _ _ db)) as [text|].
Qed.

(** GetProduct on a key that holds [p], the two calls not failing. *)
Lemma GetProduct_found env db id p :
  id ≠ "" → Table db !! id = Some p → no_fault_for 2 db →
  ∃ db', GetProduct id (env, db) = ((env, db'), Ok p) ∧ Table db' = Table db.
Proof.
  intros Hid Hp Hf. rewrite GetProduct_paths, bool_decide_eq_false_2 by done.
  cbn [GetByID productRepository]. rewrite GetByID_paths, Hp.
  sdk_calls_succeed. by eexists.
Qed.

(** GetProduct on a key that holds nothing, the call not failing. *)
Lemma GetProduct_absent env db id :
  id ≠ "" → Table db !! id = None → no_fault_for 1 db →
  ∃ db', GetProduct id (env, db) = ((env, db'), Err ErrProductNotFound) ∧
         Table db' = Table db.
Proof.
  intros Hid Hnone Hf. rewrite GetProduct_paths, bool_decide_eq_false_2 by done.
  cbn [GetByID productRepository]. rewrite GetByID_paths, Hnone.
  sdk_calls_succeed. by eexists.
Qed.

(** CreateProduct of a request that passes validation, the two calls not
    failing: the product is written under its fresh id. *)
Lemma CreateProduct_written req env db :
  validateCreateRequest req = None → no_fault_for 2 db →
  ∃ p db1,
    CreateProduct req (env, db) = ((draw (tick env), db1), Ok p) ∧
    (NewProduct req env).2 = Ok p ∧
    Table db1 = <[ID p := p]> (Table db) ∧
    Faults db1 = Faults db ∧
    Trace db1 = CallPutItem p :: CallMarshalMap p :: Trace db.
Proof.
  intros Hvalid Hf. rewrite CreateProduct_paths, Hvalid, NewProduct_eq.
  cbn [Create productRepository]. rewrite Create_paths.
  sdk_calls_succeed. by do 2 eexists.
Qed.

(** The id NewProduct gives is never empty. *)
Lemma NewProduct_ID_nonempty req env p : (NewProduct req env).2 = Ok p → ID p ≠ "".
Proof. rewrite NewProduct_eq. intros [= <-]. apply String_nonempty. Qed.

Lemma no_fault_for_shift k j db db' :
  Faults db' = Faults db → length (Trace db') = (length (Trace db) + j)%nat →
  no_fault_for (j + k) db → no_fault_for k db'.
Proof.
  intros HF HT Hf i Hi. rewrite HF, HT, <-Nat.add_assoc. apply Hf. lia.
Qed.

(** X1. A product created through the service can be read back: when the
    request passes validation and the four SDK calls involved do not
    fail, CreateProduct stores the product it returns under that
    product's id, and GetProduct with that id then returns the very same
    product. *)
Theorem created_product_can_be_read_back req env db :
  validateCreateRequest req = None → no_fault_for 4 db →
  ∃ p db1 db2,
    CreateProduct req (env, db) = ((draw (tick env), db1), Ok p) ∧
    Table db1 !! ID p = Some p ∧
    GetProduct (ID p) (draw (tick env), db1) = ((draw (tick env), db2), Ok p).
Proof.
  intros Hvalid Hf.
  destruct (CreateProduct_written req env db Hvalid) as (p & db1 & Hc & Hp & Ht & HF & HT);
    [by eapply no_fault_for_le, Hf; lia|].
  assert (Table db1 !! ID p = Some p) as Hstored by (rewrite Ht; apply lookup_insert_eq).
  destruct (GetProduct_found (draw (tick env)) db1 (ID p) p) as (db2 & Hg & _);
    [by eapply NewProduct_ID_nonempty|done| |by exists p, db1, db2].
  eapply (no_fault_for_shift 2 2); [done| |done]. rewrite HT. simpl. lia.
Qed.

Lemma created_product_can_be_read_back_witness :
  ∃ p db1 db2,
    CreateProduct samples.widget_request (samples.env0, samples.table_of [])
      = ((draw (tick samples.env0), db1), Ok p) ∧
    Table db1 !! ID p = Some p ∧
    GetProduct (ID p) (draw (tick samples.env0), db1)
      = ((draw (tick samples.env0), db2), Ok p).
Proof.
  apply (created_product_can_be_read_back samples.widget_request samples.env0
           (samples.table_of [])); [reflexivity|apply table_of_no_fault].
Defined.

(** X2. Create, then delete, then look up: when the request passes
    validation and the six SDK calls involved do not fail, DeleteProduct
    with the id of the product just created succeeds, and GetProduct with
    that id then fails with ErrProductNotFound. *)
Theorem created_then_deleted_is_not_found req env db :
  validateCreateRequest req = None → no_fault_for 6 db →
  ∃ p db1 db2 db3,
    CreateProduct req (env, db) = ((draw (tick env), db1), Ok p) ∧
    DeleteProduct (ID p) (draw (tick env), db1) = ((draw (tick env), db2), Ok tt) ∧
    Table db2 !! ID p = None ∧
    GetProduct (ID p) (draw (tick env), db2)
      = ((draw (tick env), db3), Err ErrProductNotFound).
Proof.
  intros Hvalid Hf.
  destruct (CreateProduct_written req env db Hvalid) as (p & db1 & Hc & Hp & Ht & HF & HT);
    [by eapply no_fault_for_le, Hf; lia|].
  assert (ID p ≠ "") as Hid by by eapply NewProduct_ID_nonempty.
  assert (no_fault_for 4 db1) as Hf1.
  { eapply (no_fault_for_shift 4 2); [done| |done]. rewrite HT. simpl. lia. }
  exists p, db1. rewrite DeleteProduct_paths, bool_decide_eq_false_2 by done.
  cbn [GetByID Delete productRepository].
  rewrite GetByID_paths, Ht, lookup_insert_eq. sdk_calls_succeed.
  rewrite Delete_paths. sdk_calls_succeed.
  do 2 eexists. split; [done|]. split; [done|]. split.
  { rewrite Table_after. apply lookup_delete_eq. }
  rewrite GetProduct_paths, bool_decide_eq_false_2 by done.
  cbn [GetByID productRepository]. rewrite GetByID_paths.
  sdk_calls_succeed. by rewrite lookup_delete_eq.
Qed.

Lemma created_then_deleted_is_not_found_witness :
  ∃ p db1 db2 db3,
    CreateProduct samples.widget_request (samples.env0, samples.table_of [])
      = ((draw (tick samples.env0), db1), Ok p) ∧
    DeleteProduct (ID p) (draw (tick samples.env0), db1)
      = ((draw (tick samples.env0), db2), Ok tt) ∧
    Table db2 !! ID p = None ∧
    GetProduct (ID p) (draw (tick samples.env0), db2)
      = ((draw (tick samples.env0), db3), Err ErrProductNotFound).
Proof.
  apply (created_then_deleted_is_not_found samples.widget_request samples.env0
           (samples.table_of [])); [reflexivity|apply table_of_no_fault].
Defined.

Lemma merged_ID now p req : ID (merged now p req) = ID p.
Proof. by destruct req as [[?|] [?|] [?|] [?|] [?|] [?|] [?|]]. Qed.

Lemma merged_IsActive now p req :
  IsActive (merged now p req) = default (IsActive p) (UpdateProductRequest.IsActive req).
Proof. by destruct req as [[?|] [?|] [?|] [?|] [?|] [?|] [?|]]. Qed.

(** UpdateProduct of a request that passes validation on a key that holds
    [p], the four calls not failing: the merged record is written under
    the id of [p]. *)
Lemma UpdateProduct_written id req env db p :
  id ≠ "" → Table db !! id = Some p → validateUpdateRequest req = None →
  no_fault_for 4 db →
  ∃ db1,
    UpdateProduct id req (env, db)
      = ((tick env, db1), Ok (merged (now_of env) p req)) ∧
    Table db1 = <[ID p := merged (now_of env) p req]> (Table db) ∧
    Faults db1 = Faults db ∧
    length (Trace db1) = (length (Trace db) + 4)%nat.
Proof.
  intros Hid Hp Hvalid Hf.
  rewrite UpdateProduct_paths, bool_decide_eq_false_2 by done.
  cbn [GetByID repository.Update productRepository].
  rewrite GetByID_paths, Hp. sdk_calls_succeed. rewrite Hvalid, Update_paths.
  sdk_calls_succeed. eexists. split; [done|]. rewrite merged_ID.
  split_and!; [done..|]. simpl. lia.
Qed.

(** X3. An update made through the service can be read back: when the
    record stored under a non-empty id carries that id, the request
    passes validation and the six SDK calls involved do not fail,
    UpdateProduct returns the stored record with the request applied and
    GetProduct with the same id then returns that same record. *)
Theorem updated_product_can_be_read_back id req env db p :
  id ≠ "" → Table db !! id = Some p → ID p = id →
  validateUpdateRequest req = None → no_fault_for 6 db →
  ∃ db1 db2,
    UpdateProduct id req (env, db)
      = ((tick env, db1), Ok (merged (now_of env) p req)) ∧
    GetProduct id (tick env, db1)
      = ((tick env, db2), Ok (merged (now_of env) p req)).
Proof.
  intros Hid Hp Hkey Hvalid Hf.
  destruct (UpdateProduct_written id req env db p) as (db1 & Hu & Ht & HF & HT);
    [done..|by eapply no_fault_for_le, Hf; lia|].
  destruct (GetProduct_found (tick env) db1 id (merged (now_of env) p req))
    as (db2 & Hg & _); [done| | |by exists db1, db2].
  - rewrite Ht, Hkey. apply lookup_insert_eq.
  - by eapply (no_fault_for_shift 2 4).
Qed.

Lemma updated_product_can_be_read_back_witness :
  ∃ db1 db2 p',
    UpdateProduct "id1" (more_samples.rename "Sprocket")
      (samples.env0, samples.table_of [samples.widget true])
      = ((tick samples.env0, db1), Ok p') ∧
    Name p' = "Sprocket" ∧
    GetProduct "id1" (tick samples.env0, db1) = ((tick samples.env0, db2), Ok p').
Proof.
  destruct (updated_product_can_be_read_back "id1" (more_samples.rename "Sprocket")
              samples.env0 (samples.table_of [samples.widget true])
              (samples.widget true))
    as (db1 & db2 & Hu & Hg);
    [discriminate|reflexivity|reflexivity|reflexivity|apply table_of_no_fault|].
  by exists db1, db2, (merged (now_of samples.env0) (samples.widget true)
                         (more_samples.rename "Sprocket")).
Defined.

(** X4. Deactivating a product hides it from the listings and from
    nothing else.  In a table where every item sits under its own id,
    after a successful UpdateProduct whose request sets isActive to
    false, GetProduct with that id still returns the record, now
    inactive, while no result of GetAllProducts or of
    GetProductsByCategory contains a product with that id. *)
Theorem deactivated_product_is_hidden_from_listings id req env db p :
  keyed_by_id (Table db) → id ≠ "" → Table db !! id = Some p →
  validateUpdateRequest req = None →
  UpdateProductRequest.IsActive req = Some false →
  no_fault_for 6 db →
  ∃ p' db1 db2,
    UpdateProduct id req (env, db) = ((tick env, db1), Ok p') ∧
    IsActive p' = false ∧
    GetProduct id (tick env, db1) = ((tick env, db2), Ok p') ∧
    (∀ w' ps, GetAllProducts (tick env, db1) = (w', Ok ps) →
       ∀ q, q ∈ ps → ID q ≠ id) ∧
    (∀ category w' ps,
       GetProductsByCategory category (tick env, db1) = (w', Ok ps) →
       ∀ q, q ∈ ps → ID q ≠ id).
Proof.
  intros Hkeyed Hid Hp Hvalid Hoff Hf.
  pose proof (Hkeyed _ _ Hp) as Hkey.
  destruct (UpdateProduct_written id req env db p) as (db1 & Hu & Ht & HF & HT);
    [done..|by eapply no_fault_for_le, Hf; lia|].
  destruct (GetProduct_found (tick env) db1 id (merged (now_of env) p req))
    as (db2 & Hg & _);
    [done|rewrite Ht, Hkey; apply lookup_insert_eq
    |by eapply (no_fault_for_shift 2 4)|].
  assert (IsActive (merged (now_of env) p req) = false) as Hinactive
    by by rewrite merged_IsActive, Hoff.
  assert (∀ q key, Table db1 !! key = Some q → IsActive q = true → ID q ≠ id)
    as Hothers.
  { intros q key. rewrite Ht, Hkey, lookup_insert.
    case_decide as Hk; [intros [= <-]; congruence|].
    intros Hq _. by rewrite (Hkeyed _ _ Hq). }
  exists (merged (now_of env) p req), db1, db2. split_and!; [done..| |].
  - intros w' ps. rewrite GetAllProducts_paths. cbn [GetAll productRepository].
    destruct (productRepository_GetAll db1) as [db3 [ps'|e]] eqn:Hall; [|done].
    intros [= _ <-] q Hq.
    destruct (GetAll_ok _ _ _ Hall q Hq) as (Hactive & key & Hstored). eauto.
  - intros category w' ps. rewrite GetProductsByCategory_paths.
    case_bool_decide; [done|]. cbn [GetByCategory productRepository].
    destruct (productRepository_GetByCategory category db1) as [db3 [ps'|e]] eqn:Hcat;
      [|done].
    intros [= _ <-] q Hq.
    destruct (GetByCategory_ok _ _ _ _ Hcat q Hq) as (Hactive & _ & key & Hstored). eauto.
Qed.

Lemma table_of_widget_keyed :
  keyed_by_id (Table (samples.table_of [samples.widget true])).
Proof.
  intros key item. simpl. rewrite insert_empty, lookup_singleton_Some.
  by intros [<- <-].
Qed.

Lemma deactivated_product_is_hidden_from_listings_witness :
  ∃ p' db1,
    UpdateProduct "id1" more_samples.deactivate
      (samples.env0, samples.table_of [samples.widget true])
      = ((tick samples.env0, db1), Ok p') ∧
    IsActive p' = false ∧
    (GetAllProducts (tick samples.env0, db1)).2 = Ok [].
Proof.
  destruct (deactivated_product_is_hidden_from_listings "id1" more_samples.deactivate
              samples.env0 (samples.table_of [samples.widget true])
              (samples.widget true))
    as (p' & db1 & db2 & Hu & Hoff & _ & _ & _);
    [apply table_of_widget_keyed|discriminate|reflexivity|reflexivity|reflexivity
    |apply table_of_no_fault|].
  exists p', db1. split_and!; [done..|].
  vm_compute in Hu. injection Hu as <- _. vm_compute. reflexivity.
Defined.

(* ===================================================================== *)
(** ** What the operations leave alone *)
(* ===================================================================== *)

Lemma Create_table p db :
  Table (productRepository_Create p db).1 = Table db ∨
  Table (productRepository_Create p db).1 = <[ID p := p]> (Table db).
Proof.
  rewrite Create_paths. cbv zeta.
  destruct (next_fault db); [by left|].
  destruct (next_fault (after _ _ db)); [by left|by right].
Qed.

Lemma Update_table p db :
  Table (productRepository_Update p db).1 = Table db ∨
  Table (productRepository_Update p db).1 = <[ID p := p]> (Table db).
Proof.
  rewrite Update_paths. cbv zeta.
  destruct (next_fault db); [by left|].
  destruct (next_fault (after _ _ db)); [by left|by right].
Qed.

Lemma Delete_table id db :
  Table (productRepository_Delete id db).1 = Table db ∨
  Table (productRepository_Delete id db).1 = delete id (Table db).
Proof. rewrite Delete_paths. destruct (next_fault db); [by left|by right]. Qed.

(** What GetByID finds is what the table holds under the id. *)
Lemma GetByID_found id db db1 p :
  productRepository_GetByID id db = (db1, Ok (Some p)) → Table db !! id = Some p.
Proof.
  rewrite GetByID_paths. cbv zeta.
  destruct (next_fault db); [done|].
  destruct (Table db !! id) as [item|]; [|done].
  destruct (next_fault (after _ _ db)); [done|]. by intros [= _ <-].
Qed.

Lemma GetByID_absent id db db1 :
  productRepository_GetByID id db = (db1, Ok None) → Table db !! id = None.
Proof.
  rewrite GetByID_paths. cbv zeta.
  destruct (next_fault db); [done|].
  destruct (Table db !! id) as [item|]; [|done].
  by destruct (next_fault (after _ _ db)).
Qed.

(** The table after CreateProduct, UpdateProduct and DeleteProduct,
    whatever the fault plan: as it was, or changed at one key. *)
Lemma CreateProduct_table req env db :
  Table (CreateProduct req (env, db)).1.2 = Table db ∨
  ∃ p, (NewProduct req env).2 = Ok p ∧ validateCreateRequest req = None ∧
       Table (CreateProduct req (env, db)).1.2 = <[ID p := p]> (Table db).
Proof.
  rewrite CreateProduct_paths.
  destruct (validateCreateRequest req); [by left|].
  rewrite NewProduct_eq. cbn [Create productRepository].
  match goal with |- context [productRepository_Create ?p db] =>
    destruct (Create_table p db) as [Ht|Ht];
    destruct (productRepository_Create p db) as [db1 [[]|e]]; cbn [fst snd] in *;
    [by left|by left|right; by exists p|right; by exists p]
  end.
Qed.

Lemma UpdateProduct_table id req env db :
  Table (UpdateProduct id req (env, db)).1.2 = Table db ∨
  ∃ p, Table db !! id = Some p ∧ validateUpdateRequest req = None ∧
       Table (UpdateProduct id req (env, db)).1.2
         = <[ID p := merged (now_of env) p req]> (Table db).
Proof.
  rewrite UpdateProduct_paths. case_bool_decide; [by left|].
  cbn [GetByID repository.Update productRepository].
  destruct (GetByID_reads id db) as (Hread & _).
  destruct (productRepository_GetByID id db) as [db1 [[p|]|e]] eqn:Hget;
    simpl in Hread; [|by left..].
  apply GetByID_found in Hget.
  destruct (validateUpdateRequest req); [by left|].
  destruct (Update_table (merged (now_of env) p req) db1) as [Ht|Ht];
    destruct (productRepository_Update _ db1) as [db2 [[]|e]]; cbn [fst snd] in *;
    rewrite Ht, ?merged_ID, Hread; [by left|by left|right; by exists p..].
Qed.

Lemma DeleteProduct_table id env db :
  Table (DeleteProduct id (env, db)).1.2 = Table db ∨
  Table (DeleteProduct id (env, db)).1.2 = delete id (Table db).
Proof.
  rewrite DeleteProduct_paths. case_bool_decide; [by left|].
  cbn [GetByID Delete productRepository].
  destruct (GetByID_reads id db) as (Hread & _).
  destruct (productRepository_GetByID id db) as [db1 [[p|]|e]];
    simpl in Hread; [|by left..].
  destruct (Delete_table id db1) as [Ht|Ht];
    destruct (productRepository_Delete id db1) as [db2 [[]|e]]; cbn [fst snd] in *;
    rewrite Ht, Hread; (by left) || (by right).
Qed.

(** X5. A write through the service changes the table at one key at
    most, whatever the fault plan: CreateProduct only under the id it
    generates, UpdateProduct only under the id of the record it has
    loaded, DeleteProduct only under the id it is given; every other key
    holds what it held. *)
Theorem writes_touch_one_key env db key :
  (∀ req, key ≠ uuid.String_ (uuid.NewRandom (Entropy env (UuidCalls env))) →
     Table (CreateProduct req (env, db)).1.2 !! key = Table db !! key) ∧
  (∀ id req, (∀ p, Table db !! id = Some p → key ≠ ID p) →
     Table (UpdateProduct id req (env, db)).1.2 !! key = Table db !! key) ∧
  (∀ id, key ≠ id →
     Table (DeleteProduct id (env, db)).1.2 !! key = Table db !! key).
Proof.
  split_and!.
  - intros req Hkey. destruct (CreateProduct_table req env db) as [->|(p & Hp & _ & ->)];
      [done|].
    rewrite NewProduct_eq in Hp. injection Hp as <-. by rewrite lookup_insert_ne.
  - intros id req Hkey.
    destruct (UpdateProduct_table id req env db) as [->|(p & Hp & _ & ->)]; [done|].
    rewrite lookup_insert_ne; [done|]. intros Heq. by apply (Hkey p Hp).
  - intros id Hkey. destruct (DeleteProduct_table id env db) as [->| ->]; [done|].
    by rewrite lookup_delete_ne.
Qed.

Lemma writes_touch_one_key_witness :
  Table (UpdateProduct "id1" more_samples.deactivate
           (samples.env0, samples.table_of [samples.widget true; samples.gadget true])).1.2
    !! "id2" = Some (samples.gadget true) ∧
  Table (DeleteProduct "id1"
           (samples.env0, samples.table_of [samples.widget true; samples.gadget true])).1.2
    !! "id2" = Some (samples.gadget true) ∧
  Table (CreateProduct samples.widget_request
           (samples.env0, samples.table_of [samples.widget true; samples.gadget true])).1.2
    !! "id2" = Some (samples.gadget true).
Proof.
  destruct (writes_touch_one_key samples.env0
              (samples.table_of [samples.widget true; samples.gadget true]) "id2")
    as (Hc & Hu & Hd).
  split_and!.
  - rewrite Hu; [reflexivity|]. intros p Hp. vm_compute in Hp. by injection Hp as <-.
  - by rewrite Hd.
  - rewrite Hc; [reflexivity|]. vm_compute. discriminate.
Defined.

(** X6. That every item sits under its own id is kept by every write
    through the service, whatever the fault plan. *)
Theorem writes_keep_items_under_their_id env db :
  keyed_by_id (Table db) →
  (∀ req, keyed_by_id (Table (CreateProduct req (env, db)).1.2)) ∧
  (∀ id req, keyed_by_id (Table (UpdateProduct id req (env, db)).1.2)) ∧
  (∀ id, keyed_by_id (Table (DeleteProduct id (env, db)).1.2)).
Proof.
  intros Hkeyed. split_and!.
  - intros req. destruct (CreateProduct_table req env db) as [->|(p & _ & _ & ->)];
      [done|].
    intros key item. rewrite lookup_insert. case_decide; [by intros [= <-]|].
    apply Hkeyed.
  - intros id req.
    destruct (UpdateProduct_table id req env db) as [->|(p & _ & _ & ->)]; [done|].
    intros key item. rewrite lookup_insert.
    case_decide as Hk; [intros [= <-]; by rewrite merged_ID|]. apply Hkeyed.
  - intros id. destruct (DeleteProduct_table id env db) as [->| ->]; [done|].
    intros key item. rewrite lookup_delete. case_decide; [done|]. apply Hkeyed.
Qed.

Lemma writes_keep_items_under_their_id_witness :
  keyed_by_id (Table (UpdateProduct "id1" (more_samples.rename "Sprocket")
                        (samples.env0, samples.table_of [samples.widget true])).1.2).
Proof.
  apply (writes_keep_items_under_their_id samples.env0
           (samples.table_of [samples.widget true]) table_of_widget_keyed).
Defined.

(** X7. The repository's Update does not ask whether the record exists:
    on every table and fault plan it leaves the store exactly as Create
    would, and succeeds exactly when Create would; so an Update of a
    product whose id is not in the table, the two SDK calls not failing,
    puts it there. *)
Theorem repository_Update_writes_like_Create p db :
  (productRepository_Update p db).1 = (productRepository_Create p db).1 ∧
  ((productRepository_Update p db).2 = Ok tt ↔
   (productRepository_Create p db).2 = Ok tt) ∧
  (no_fault_for 2 db →
     (productRepository_Update p db).2 = Ok tt ∧
     Table (productRepository_Update p db).1 !! ID p = Some p).
Proof.
  rewrite Update_paths, Create_paths. cbv zeta. split_and!.
  - destruct (next_fault db); [done|]. by destruct (next_fault (after _ _ db)).
  - destruct (next_fault db); [done|]. by destruct (next_fault (after _ _ db)).
  - intros Hf. sdk_calls_succeed. split; [done|]. apply lookup_insert_eq.
Qed.

Lemma repository_Update_writes_like_Create_witness :
  Table (samples.table_of []) !! "id1" = None ∧
  Table (productRepository_Update (samples.widget true) (samples.table_of [])).1
    !! "id1" = Some (samples.widget true).
Proof.
  split; [reflexivity|].
  destruct (repository_Update_writes_like_Create (samples.widget true)
              (samples.table_of [])) as (_ & _ & Hput).
  by destruct (Hput (table_of_no_fault _ _)).
Defined.

(* ===================================================================== *)
(** ** Reads, failures and the kinds of error *)
(* ===================================================================== *)

Lemma reads_only_refl db : reads_only db db.
Proof. by split. Qed.

Lemma reads_only_trans db1 db2 db3 :
  reads_only db1 db2 → reads_only db2 db3 → reads_only db1 db3.
Proof. intros [Ht1 Hw1] [Ht2 Hw2]. split; congruence. Qed.

Lemma reads_only_after c db :
  is_write c = false → reads_only db (after c (Table db) db).
Proof. intros Hc. split; [done|]. unfold writes. simpl. by rewrite Hc. Qed.

Lemma GetByID_reads_only id db :
  reads_only db (productRepository_GetByID id db).1.
Proof.
  rewrite GetByID_paths. cbv zeta.
  destruct (next_fault db); [by apply reads_only_after|].
  destruct (Table db !! id) as [item|]; [|by apply reads_only_after].
  destruct (next_fault (after _ _ db)); cbn [fst];
    (eapply reads_only_trans; [by apply (reads_only_after (CallGetItem id))|]);
    by apply (reads_only_after (CallUnmarshalMap item)
                (after (CallGetItem id) (Table db) db)).
Qed.

Lemma unmarshal_each_reads_only items : ∀ acc db,
  reads_only db (unmarshal_each items acc db).1.
Proof.
  induction items as [|item items IH]; intros acc db; simpl.
  - apply reads_only_refl.
  - unfold bind, wrapping, UnmarshalMap, sdk_call.
    destruct (next_fault db); [by apply reads_only_after|].
    eapply reads_only_trans; [|apply IH]. by apply reads_only_after.
Qed.

Lemma scan_then_unmarshal_reads_only text filter db :
  reads_only db
    (bind (wrapping text (Scan filter)) (λ result, unmarshal_each result []) db).1.
Proof.
  unfold bind, wrapping, Scan, sdk_call.
  destruct (next_fault db); [by apply reads_only_after|].
  eapply reads_only_trans; [|apply unmarshal_each_reads_only].
  by apply reads_only_after.
Qed.

(** X8. The three read operations of the service never write, whatever
    the table and the fault plan, and whether they succeed or fail: the
    table is left as it was, no PutItem or DeleteItem is issued, and
    neither the clock nor the random source is read. *)
Theorem reads_never_write env db :
  (∀ id, (GetProduct id (env, db)).1.1 = env ∧
         reads_only db (GetProduct id (env, db)).1.2) ∧
  ((GetAllProducts (env, db)).1.1 = env ∧
   reads_only db (GetAllProducts (env, db)).1.2) ∧
  (∀ category, (GetProductsByCategory category (env, db)).1.1 = env ∧
               reads_only db (GetProductsByCategory category (env, db)).1.2).
Proof.
  split; [|split].
  - intros id. rewrite GetProduct_paths. case_bool_decide; [by split|].
    cbn [GetByID productRepository].
    pose proof (GetByID_reads_only id db) as Hread.
    by destruct (productRepository_GetByID id db) as [db1 [[p|]|e]].
  - rewrite GetAllProducts_paths. cbn [GetAll productRepository].
    pose proof (scan_then_unmarshal_reads_only "failed to scan products"
                  [is_active_equals true] db) as Hread.
    fold productRepository_GetAll in Hread.
    by destruct (productRepository_GetAll db) as [db1 [ps|e]].
  - intros category. rewrite GetProductsByCategory_paths.
    case_bool_decide; [by split|]. cbn [GetByCategory productRepository].
    pose proof (scan_then_unmarshal_reads_only "failed to scan products by category"
                  [category_equals category; is_active_equals true] db) as Hread.
    fold (productRepository_GetByCategory category) in Hread.
    by destruct (productRepository_GetByCategory category db) as [db1 [ps|e]].
Qed.

Lemma PersistenceError_neither e :
  PersistenceError e → ¬ InvalidInputError e ∧ ¬ NotFoundError e.
Proof.
  unfold PersistenceError, InvalidInputError, NotFoundError.
  intros [-> ->]. by split.
Qed.

Lemma sdk_call_error {A} c (effect : gmap string Product → gmap string Product * A)
    db db' e :
  sdk_call c effect db = (db', Err e) → PersistenceError e.
Proof.
  unfold sdk_call. destruct (next_fault db); [|by destruct (effect _)].
  intros [= _ <-]. apply awserr_persistence.
Qed.

Lemma wrapping_error {A} text (m : M DynamoDB A) db db' e :
  (∀ db db' e, m db = (db', Err e) → PersistenceError e) →
  wrapping text m db = (db', Err e) → PersistenceError e.
Proof.
  intros Hm. unfold wrapping. destruct (m db) as [db1 [a|e0]] eqn:Hrun; [done|].
  intros [= _ <-]. eapply Errorf_text_w_persistence, Hm, Hrun.
Qed.

Lemma unmarshal_each_error items : ∀ acc db db' e,
  unmarshal_each items acc db = (db', Err e) → PersistenceError e.
Proof.
  induction items as [|item items IH]; intros acc db db' e; simpl; [done|].
  unfold bind.
  destruct (wrapping _ (UnmarshalMap item) db) as [db1 [p|e0]] eqn:Hrun.
  - apply IH.
  - intros [= _ <-]. eapply wrapping_error, Hrun. intros ???. apply sdk_call_error.
Qed.

(** Whatever the DynamoDB-backed repository returns as an error is a
    PersistenceError. *)
Lemma Create_error p db db' e :
  productRepository_Create p db = (db', Err e) → PersistenceError e.
Proof.
  rewrite Create_paths. cbv zeta.
  destruct (next_fault db); [by intros [= _ <-]|].
  destruct (next_fault (after _ _ db)); [by intros [= _ <-]|done].
Qed.

Lemma GetByID_error id db db' e :
  productRepository_GetByID id db = (db', Err e) → PersistenceError e.
Proof.
  rewrite GetByID_paths. cbv zeta.
  destruct (next_fault db); [by intros [= _ <-]|].
  destruct (Table db !! id); [|done].
  destruct (next_fault (after _ _ db)); [by intros [= _ <-]|done].
Qed.

Lemma GetAll_error db db' e :
  productRepository_GetAll db = (db', Err e) → PersistenceError e.
Proof.
  unfold productRepository_GetAll, bind.
  destruct (wrapping _ (Scan _) db) as [db1 [items|e0]] eqn:Hscan.
  - apply unmarshal_each_error.
  - intros [= _ <-]. eapply wrapping_error, Hscan. intros ???. apply sdk_call_error.
Qed.

Lemma GetByCategory_error category db db' e :
  productRepository_GetByCategory category db = (db', Err e) → PersistenceError e.
Proof.
  unfold productRepository_GetByCategory, bind.
  destruct (wrapping _ (Scan _) db) as [db1 [items|e0]] eqn:Hscan.
  - apply unmarshal_each_error.
  - intros [= _ <-]. eapply wrapping_error, Hscan. intros ???. apply sdk_call_error.
Qed.

Lemma Update_error p db db' e :
  productRepository_Update p db = (db', Err e) → PersistenceError e.
Proof.
  rewrite Update_paths. cbv zeta.
  destruct (next_fault db); [by intros [= _ <-]|].
  destruct (next_fault (after _ _ db)); [by intros [= _ <-]|done].
Qed.

Lemma Delete_error id db db' e :
  productRepository_Delete id db = (db', Err e) → PersistenceError e.
Proof.
  rewrite Delete_paths. destruct (next_fault db); [by intros [= _ <-]|done].
Qed.

(** X9. The service never reports a failure of the store as bad input or
    as a missing record, whatever the fault plan.  An error of
    CreateProduct is an InvalidInputError only if the request does not
    pass validateCreateRequest; of GetProduct, UpdateProduct and
    DeleteProduct only if the id is empty (or, for UpdateProduct, the
    request does not pass validateUpdateRequest), and a NotFoundError only
    if the id is not empty and the table holds nothing under it; an
    error of GetProductsByCategory is an InvalidInputError only if the
    category is empty; an error of GetAllProducts is always a
    PersistenceError; and neither listing nor CreateProduct ever reports
    NotFoundError. *)
Theorem error_kinds_are_sound env db w' e :
  (∀ req, CreateProduct req (env, db) = (w', Err e) →
     (InvalidInputError e → validateCreateRequest req ≠ None) ∧
     ¬ NotFoundError e) ∧
  (∀ id, GetProduct id (env, db) = (w', Err e) →
     (InvalidInputError e → id = "") ∧
     (NotFoundError e → id ≠ "" ∧ Table db !! id = None)) ∧
  (GetAllProducts (env, db) = (w', Err e) → PersistenceError e) ∧
  (∀ category, GetProductsByCategory category (env, db) = (w', Err e) →
     (InvalidInputError e → category = "") ∧
     ¬ NotFoundError e) ∧
  (∀ id req, UpdateProduct id req (env, db) = (w', Err e) →
     (InvalidInputError e → id = "" ∨ validateUpdateRequest req ≠ None) ∧
     (NotFoundError e → id ≠ "" ∧ Table db !! id = None)) ∧
  (∀ id, DeleteProduct id (env, db) = (w', Err e) →
     (InvalidInputError e → id = "") ∧
     (NotFoundError e → id ≠ "" ∧ Table db !! id = None)).
Proof.
  assert (∀ text e0, PersistenceError e0 →
            ∀ P Q : Prop, (InvalidInputError (Errorf_text_w text e0) → P) ∧
                          (NotFoundError (Errorf_text_w text e0) → Q)) as Hpersist.
  { intros text e0 He0 P Q.
    destruct (PersistenceError_neither _ (Errorf_text_w_persistence text _ He0)).
    by split. }
  split_and!.
  - intros req. rewrite CreateProduct_paths.
    destruct (validateCreateRequest req) as [err|]; [by intros [= _ <-]|].
    rewrite NewProduct_eq. cbn [Create productRepository].
    destruct (productRepository_Create _ db) as [db1 [[]|e0]] eqn:Hrun; [done|].
    intros [= _ <-]. apply Create_error in Hrun.
    destruct (PersistenceError_neither _
                (Errorf_text_w_persistence "failed to create product" _ Hrun)).
    by split.
  - intros id. rewrite GetProduct_paths. case_bool_decide as Hid.
    { intros [= _ <-]. by split. }
    cbn [GetByID productRepository].
    destruct (productRepository_GetByID id db) as [db1 [[p|]|e0]] eqn:Hrun; [done|..].
    + intros [= _ <-]. apply GetByID_absent in Hrun. by split.
    + intros [= _ <-]. eapply Hpersist, GetByID_error, Hrun.
  - rewrite GetAllProducts_paths. cbn [GetAll productRepository].
    destruct (productRepository_GetAll db) as [db1 [ps|e0]] eqn:Hrun; [done|].
    intros [= _ <-]. eapply Errorf_text_w_persistence, GetAll_error, Hrun.
  - intros category. rewrite GetProductsByCategory_paths. case_bool_decide as Hc.
    { intros [= _ <-]. by split. }
    cbn [GetByCategory productRepository].
    destruct (productRepository_GetByCategory category db) as [db1 [ps|e0]] eqn:Hrun;
      [done|].
    intros [= _ <-]. apply GetByCategory_error in Hrun.
    destruct (PersistenceError_neither _
                (Errorf_text_w_persistence "failed to get products by category" _ Hrun)).
    by split.
  - intros id req. rewrite UpdateProduct_paths. case_bool_decide as Hid.
    { intros [= _ <-]. split; [by left|done]. }
    cbn [GetByID repository.Update productRepository].
    destruct (productRepository_GetByID id db) as [db1 [[p|]|e0]] eqn:Hrun.
    + destruct (validateUpdateRequest req) as [err|].
      { intros [= _ <-]. split; [by right|done]. }
      destruct (productRepository_Update _ db1) as [db2 [[]|e1]] eqn:Hput; [done|].
      intros [= _ <-]. eapply Hpersist, Update_error, Hput.
    + intros [= _ <-]. apply GetByID_absent in Hrun. by split.
    + intros [= _ <-]. eapply Hpersist, GetByID_error, Hrun.
  - intros id. rewrite DeleteProduct_paths. case_bool_decide as Hid.
    { intros [= _ <-]. by split. }
    cbn [GetByID Delete productRepository].
    destruct (productRepository_GetByID id db) as [db1 [[p|]|e0]] eqn:Hrun.
    + destruct (productRepository_Delete id db1) as [db2 [[]|e1]] eqn:Hdel; [done|].
      intros [= _ <-]. eapply Hpersist, Delete_error, Hdel.
    + intros [= _ <-]. apply GetByID_absent in Hrun. by split.
    + intros [= _ <-]. eapply Hpersist, GetByID_error, Hrun.
Qed.

Lemma error_kinds_are_sound_witness :
  ∃ w' e,
    GetProduct "id1"
      (samples.env0, more_samples.failing_at 0 [samples.widget true]) = (w', Err e) ∧
    ¬ NotFoundError e ∧ ¬ InvalidInputError e.
Proof.
  destruct (GetProduct "id1"
              (samples.env0, more_samples.failing_at 0 [samples.widget true]))
    as [w' [p|e]] eqn:Hrun; [by vm_compute in Hrun|].
  exists w', e. split; [done|].
  destruct (error_kinds_are_sound samples.env0
              (more_samples.failing_at 0 [samples.widget true]) w' e)
    as (_ & Hget & _).
  destruct (Hget "id1" Hrun) as [Hinvalid Hnotfound]. split.
  - intros He. by destruct (Hnotfound He) as [_ Habsent].
  - intros He. by specialize (Hinvalid He).
Defined.

Lemma answered_refl db : answered db db.
Proof. exists []. split_and!; [done..|]. simpl. lia. Qed.

Lemma answered_step db db' c table :
  answered db db' → next_fault db' = None → answered db (after c table db').
Proof.
  intros (calls & HT & HF & Hnone) Hnext. exists (c :: calls). split_and!.
  - simpl. by rewrite HT.
  - done.
  - intros i Hi. simpl in Hi. destruct (decide (i < length calls)%nat) as [Hlt|Hge].
    + by apply Hnone.
    + assert (i = length calls) as -> by lia.
      unfold next_fault in Hnext. by rewrite HT, HF, length_app, Nat.add_comm in Hnext.
Qed.

Lemma answered_trans db1 db2 db3 :
  answered db1 db2 → answered db2 db3 → answered db1 db3.
Proof.
  intros (calls1 & HT1 & HF1 & Hnone1) (calls2 & HT2 & HF2 & Hnone2).
  exists (calls2 ++ calls1)%list. split_and!.
  - by rewrite HT2, HT1, app_assoc.
  - congruence.
  - intros i. rewrite length_app. intros Hi.
    destruct (decide (i < length calls1)%nat) as [Hlt|Hge]; [by apply Hnone1|].
    specialize (Hnone2 (i - length calls1)%nat ltac:(lia)).
    rewrite HF1, HT1, length_app in Hnone2.
    by replace (length calls1 + length (Trace db1) + (i - length calls1))%nat
      with (length (Trace db1) + i)%nat in Hnone2 by lia.
Qed.

Lemma GetByID_answered id db db' found :
  productRepository_GetByID id db = (db', Ok found) → answered db db'.
Proof.
  rewrite GetByID_paths. cbv zeta.
  destruct (next_fault db) eqn:H1; [done|].
  destruct (Table db !! id) as [item|].
  - destruct (next_fault (after _ _ db)) eqn:H2; [done|]. intros [= <- _].
    by repeat (apply answered_step || apply answered_refl).
  - intros [= <- _]. by apply answered_step; [apply answered_refl|].
Qed.

Lemma Create_answered p db db' :
  productRepository_Create p db = (db', Ok tt) → answered db db'.
Proof.
  rewrite Create_paths. cbv zeta.
  destruct (next_fault db) eqn:H1; [done|].
  destruct (next_fault (after _ _ db)) eqn:H2; [done|]. intros [= <-].
  by repeat (apply answered_step || apply answered_refl).
Qed.

Lemma Update_answered p db db' :
  productRepository_Update p db = (db', Ok tt) → answered db db'.
Proof.
  rewrite Update_paths. cbv zeta.
  destruct (next_fault db) eqn:H1; [done|].
  destruct (next_fault (after _ _ db)) eqn:H2; [done|]. intros [= <-].
  by repeat (apply answered_step || apply answered_refl).
Qed.

Lemma Delete_answered id db db' :
  productRepository_Delete id db = (db', Ok tt) → answered db db'.
Proof.
  rewrite Delete_paths. destruct (next_fault db) eqn:H1; [done|]. intros [= <-].
  by apply answered_step; [apply answered_refl|].
Qed.

Lemma unmarshal_each_answered items : ∀ acc db db' ps,
  unmarshal_each items acc db = (db', Ok ps) → answered db db'.
Proof.
  induction items as [|item items IH]; intros acc db db' ps; simpl.
  - intros [= <- _]. apply answered_refl.
  - unfold bind, wrapping, UnmarshalMap, sdk_call.
    destruct (next_fault db) eqn:H1; [done|].
    intros Hrest. eapply answered_trans; [|by eapply IH].
    by apply answered_step; [apply answered_refl|].
Qed.

Lemma scan_then_unmarshal_answered text filter db db' ps :
  bind (wrapping text (Scan filter)) (λ result, unmarshal_each result []) db
    = (db', Ok ps) →
  answered db db'.
Proof.
  unfold bind, wrapping, Scan, sdk_call.
  destruct (next_fault db) eqn:H1; [done|].
  intros Hrest. eapply answered_trans; [|by eapply unmarshal_each_answered].
  by apply answered_step; [apply answered_refl|].
Qed.

(** X10. No failure of the store is swallowed: whenever one of the six
    service operations returns a result rather than an error, every SDK
    call it has made (encoding, decoding and requests alike) had been
    answered without a failure. *)
Theorem success_means_every_call_was_answered env db w' :
  (∀ req p, CreateProduct req (env, db) = (w', Ok p) → answered db w'.2) ∧
  (∀ id p, GetProduct id (env, db) = (w', Ok p) → answered db w'.2) ∧
  (∀ ps, GetAllProducts (env, db) = (w', Ok ps) → answered db w'.2) ∧
  (∀ category ps, GetProductsByCategory category (env, db) = (w', Ok ps) →
     answered db w'.2) ∧
  (∀ id req p, UpdateProduct id req (env, db) = (w', Ok p) → answered db w'.2) ∧
  (∀ id, DeleteProduct id (env, db) = (w', Ok tt) → answered db w'.2).
Proof.
  split_and!.
  - intros req p. rewrite CreateProduct_paths.
    destruct (validateCreateRequest req); [done|].
    rewrite NewProduct_eq. cbn [Create productRepository].
    destruct (productRepository_Create _ db) as [db1 [[]|e]] eqn:Hrun; [|done].
    intros [= <- _]. by eapply Create_answered.
  - intros id p. rewrite GetProduct_paths. case_bool_decide; [done|].
    cbn [GetByID productRepository].
    destruct (productRepository_GetByID id db) as [db1 [[q|]|e]] eqn:Hrun; [|done..].
    intros [= <- _]. by eapply GetByID_answered.
  - intros ps. rewrite GetAllProducts_paths. cbn [GetAll productRepository].
    destruct (productRepository_GetAll db) as [db1 [qs|e]] eqn:Hrun; [|done].
    intros [= <- _]. by eapply scan_then_unmarshal_answered.
  - intros category ps. rewrite GetProductsByCategory_paths.
    case_bool_decide; [done|]. cbn [GetByCategory productRepository].
    destruct (productRepository_GetByCategory category db) as [db1 [qs|e]] eqn:Hrun;
      [|done].
    intros [= <- _]. by eapply scan_then_unmarshal_answered.
  - intros id req p. rewrite UpdateProduct_paths. case_bool_decide; [done|].
    cbn [GetByID repository.Update productRepository].
    destruct (productRepository_GetByID id db) as [db1 [[q|]|e]] eqn:Hrun; [|done..].
    destruct (validateUpdateRequest req); [done|].
    destruct (productRepository_Update _ db1) as [db2 [[]|e]] eqn:Hput; [|done].
    intros [= <- _]. eapply answered_trans; [by eapply GetByID_answered|].
    by eapply Update_answered.
  - intros id. rewrite DeleteProduct_paths. case_bool_decide; [done|].
    cbn [GetByID Delete productRepository].
    destruct (productRepository_GetByID id db) as [db1 [[q|]|e]] eqn:Hrun; [|done..].
    destruct (productRepository_Delete id db1) as [db2 [[]|e]] eqn:Hdel; [|done].
    intros [= <-]. eapply answered_trans; [by eapply GetByID_answered|].
    by eapply Delete_answered.
Qed.

Lemma success_means_every_call_was_answered_witness :
  ∃ w', (GetProduct "id1"
           (samples.env0, more_samples.failing_at 2 [samples.widget true])).1 = w' ∧
        answered (more_samples.failing_at 2 [samples.widget true]) w'.2.
Proof.
  eexists. split; [reflexivity|].
  destruct (success_means_every_call_was_answered samples.env0
              (more_samples.failing_at 2 [samples.widget true])
              (GetProduct "id1"
                 (samples.env0, more_samples.failing_at 2 [samples.widget true])).1)
    as (_ & Hget & _).
  apply (Hget "id1" (samples.widget true)). vm_compute. reflexivity.
Defined.

Lemma reliable_no_fault k db : reliable db → no_fault_for k db.
Proof. intros Hr i _. apply Hr. Qed.

Lemma reliable_after c table db : reliable db → reliable (after c table db).
Proof. done. Qed.

Lemma reads_only_reliable_GetByID id db :
  reliable db →
  ∃ db1, productRepository_GetByID id db = (db1, Ok (Table db !! id)) ∧
         reliable db1 ∧ Table db1 = Table db.
Proof.
  intros Hr. rewrite GetByID_paths. cbv zeta.
  rewrite (no_fault_for_next 0 db (reliable_no_fault _ _ Hr)).
  destruct (Table db !! id) as [item|]; [|by eexists].
  rewrite (no_fault_for_next 0 (after (CallGetItem id) (Table db) db)
             (reliable_no_fault _ _ (reliable_after _ _ _ Hr))).
  by eexists.
Qed.

Lemma unmarshal_each_reliable items acc db :
  reliable db → ∃ db', unmarshal_each items acc db = (db', Ok (acc ++ items)%list).
Proof. intros Hr. by apply unmarshal_each_total, reliable_no_fault. Qed.

(** X11. When the store answers every call, the service fails only on
    bad input or on a missing record: GetAllProducts always returns a
    list, GetProductsByCategory does for every non-empty category,
    CreateProduct fails only with an InvalidInputError, and GetProduct,
    UpdateProduct and DeleteProduct only with an InvalidInputError or
    with ErrProductNotFound. *)
Theorem reliable_store_fails_only_on_input_or_absence env db :
  reliable db →
  (∀ req w' e, CreateProduct req (env, db) = (w', Err e) → InvalidInputError e) ∧
  (∀ id w' e, GetProduct id (env, db) = (w', Err e) →
     InvalidInputError e ∨ e = ErrProductNotFound) ∧
  (∃ w' ps, GetAllProducts (env, db) = (w', Ok ps)) ∧
  (∀ category, category ≠ "" →
     ∃ w' ps, GetProductsByCategory category (env, db) = (w', Ok ps)) ∧
  (∀ id req w' e, UpdateProduct id req (env, db) = (w', Err e) →
     InvalidInputError e ∨ e = ErrProductNotFound) ∧
  (∀ id w' e, DeleteProduct id (env, db) = (w', Err e) →
     InvalidInputError e ∨ e = ErrProductNotFound).
Proof.
  intros Hr.
  pose proof (reliable_no_fault 2 db Hr) as Hf.
  split_and!.
  - intros req w' e. rewrite CreateProduct_paths.
    destruct (validateCreateRequest req); [by intros [= _ <-]|].
    rewrite NewProduct_eq. cbn [Create productRepository].
    rewrite Create_paths. by sdk_calls_succeed.
  - intros id w' e. rewrite GetProduct_paths. case_bool_decide.
    { intros [= _ <-]. by left. }
    cbn [GetByID productRepository].
    destruct (reads_only_reliable_GetByID id db Hr) as (db1 & -> & _).
    destruct (Table db !! id); [done|]. intros [= _ <-]. by right.
  - rewrite GetAllProducts_paths. cbn [GetAll productRepository].
    unfold productRepository_GetAll, bind, wrapping, Scan, sdk_call.
    sdk_calls_succeed.
    match goal with |- context [unmarshal_each ?items [] ?db1] =>
      destruct (unmarshal_each_reliable items [] db1) as [db2 ->]; [done|]
    end.
    by do 2 eexists.
  - intros category Hc. rewrite GetProductsByCategory_paths,
      bool_decide_eq_false_2 by done.
    cbn [GetByCategory productRepository].
    unfold productRepository_GetByCategory, bind, wrapping, Scan, sdk_call.
    sdk_calls_succeed.
    match goal with |- context [unmarshal_each ?items [] ?db1] =>
      destruct (unmarshal_each_reliable items [] db1) as [db2 ->]; [done|]
    end.
    by do 2 eexists.
  - intros id req w' e. rewrite UpdateProduct_paths. case_bool_decide.
    { intros [= _ <-]. by left. }
    cbn [GetByID repository.Update productRepository].
    destruct (reads_only_reliable_GetByID id db Hr) as (db1 & -> & Hr1 & _).
    destruct (Table db !! id); [|intros [= _ <-]; by right].
    destruct (validateUpdateRequest req); [intros [= _ <-]; by left|].
    pose proof (reliable_no_fault 2 db1 Hr1).
    rewrite Update_paths. by sdk_calls_succeed.
  - intros id w' e. rewrite DeleteProduct_paths. case_bool_decide.
    { intros [= _ <-]. by left. }
    cbn [GetByID Delete productRepository].
    destruct (reads_only_reliable_GetByID id db Hr) as (db1 & -> & Hr1 & _).
    destruct (Table db !! id); [|intros [= _ <-]; by right].
    pose proof (reliable_no_fault 1 db1 Hr1).
    rewrite Delete_paths. by sdk_calls_succeed.
Qed.

Lemma reliable_store_fails_only_on_input_or_absence_witness :
  ∃ w' ps,
    GetAllProducts
      (samples.env0, samples.table_of [samples.widget true; samples.gadget false])
    = (w', Ok ps).
Proof.
  destruct (reliable_store_fails_only_on_input_or_absence samples.env0
              (samples.table_of [samples.widget true; samples.gadget false]))
    as (_ & _ & Hall & _); [by intros n|done].
Defined.

(* ===================================================================== *)
(** ** The entity under repeated updates, and the rules it keeps *)
(* ===================================================================== *)

Lemma merged_over now1 now2 p earlier later :
  merged now2 (merged now1 p earlier) later = merged now2 p (over later earlier).
Proof.
  destruct earlier as [[?|] [?|] [?|] [?|] [?|] [?|] [?|]],
           later as [[?|] [?|] [?|] [?|] [?|] [?|] [?|]]; reflexivity.
Qed.

(** X12. Two updates in a row amount to one: applying [earlier] and then
    [later] to a product leaves the record that applying, at the time of
    the second update, the single request does in which every field of
    [later] that is present wins over the same field of [earlier].  In
    particular, applying the same request a second time changes nothing
    but updatedAt. *)
Theorem Update_twice_is_Update_of_the_overlay p earlier later env :
  ∃ p1 p2,
    models.Update p earlier env = (tick env, Ok p1) ∧
    models.Update p1 later (tick env) = (tick (tick env), Ok p2) ∧
    models.Update p (over later earlier) (tick env) = (tick (tick env), Ok p2) ∧
    (later = earlier → p2 = set_UpdatedAt (now_of (tick env)) p1).
Proof.
  exists (merged (now_of env) p earlier),
         (merged (now_of (tick env)) (merged (now_of env) p earlier) later).
  rewrite !Update_eq, merged_over. split_and!; [done..|].
  intros ->.
  destruct earlier as [[?|] [?|] [?|] [?|] [?|] [?|] [?|]]; reflexivity.
Qed.

Lemma Update_twice_is_Update_of_the_overlay_witness :
  ∃ p2,
    models.Update (samples.widget true)
      (over (more_samples.rename "Sprocket") more_samples.deactivate)
      (tick samples.env0)
    = (tick (tick samples.env0), Ok p2) ∧
    Name p2 = "Sprocket" ∧ IsActive p2 = false.
Proof.
  destruct (Update_twice_is_Update_of_the_overlay (samples.widget true)
              more_samples.deactivate (more_samples.rename "Sprocket") samples.env0)
    as (p1 & p2 & _ & _ & Hoverlay & _).
  exists p2. split; [done|].
  vm_compute in Hoverlay. by injection Hoverlay as <-.
Defined.

Lemma NewProduct_passes_create_rules req env p :
  validateCreateRequest req = None → (NewProduct req env).2 = Ok p →
  passes_create_rules p.
Proof.
  rewrite validateCreateRequest_passes, NewProduct_eq. by intros ? [= <-].
Qed.

Lemma merged_passes_create_rules now p req :
  validateUpdateRequest req = None → passes_create_rules p →
  passes_create_rules (merged now p req).
Proof.
  rewrite validateUpdateRequest_passes.
  intros (Hprice & Hstock & Hname & Hcategory & Hsku) (Hn & Hp & Hc & Hs & Hst).
  destruct req as [[n|] d [pr|] [c|] [s|] [st|] a]; destruct d, a; simpl in *;
    split_and!; eauto.
Qed.

(** X13. The rules checked at creation hold for as long as a product is
    in the table: if every stored item has a non-empty name, category and
    sku, a price that is not [<= 0] and a stock of at least 0, then so has
    every stored item after CreateProduct, UpdateProduct or DeleteProduct,
    whatever the request and the fault plan. *)
Theorem writes_keep_stored_products_within_the_rules env db :
  (∀ key item, Table db !! key = Some item → passes_create_rules item) →
  (∀ req key item, Table (CreateProduct req (env, db)).1.2 !! key = Some item →
     passes_create_rules item) ∧
  (∀ id req key item, Table (UpdateProduct id req (env, db)).1.2 !! key = Some item →
     passes_create_rules item) ∧
  (∀ id key item, Table (DeleteProduct id (env, db)).1.2 !! key = Some item →
     passes_create_rules item).
Proof.
  intros Hrules. split_and!.
  - intros req key item.
    destruct (CreateProduct_table req env db) as [->|(p & Hp & Hvalid & ->)];
      [apply Hrules|].
    rewrite lookup_insert. case_decide; [|apply Hrules].
    intros [= <-]. by eapply NewProduct_passes_create_rules.
  - intros id req key item.
    destruct (UpdateProduct_table id req env db) as [->|(p & Hp & Hvalid & ->)];
      [apply Hrules|].
    rewrite lookup_insert. case_decide; [|apply Hrules].
    intros [= <-]. apply merged_passes_create_rules; [done|]. by eapply Hrules.
  - intros id key item.
    destruct (DeleteProduct_table id env db) as [->| ->]; [apply Hrules|].
    rewrite lookup_delete. case_decide; [done|]. apply Hrules.
Qed.

Lemma writes_keep_stored_products_within_the_rules_witness :
  ∃ item,
    Table (UpdateProduct "id1" (more_samples.rename "Sprocket")
             (samples.env0, samples.table_of [samples.widget true])).1.2 !! "id1"
      = Some item ∧
    Name item = "Sprocket" ∧
    passes_create_rules item.
Proof.
  destruct (writes_keep_stored_products_within_the_rules samples.env0
              (samples.table_of [samples.widget true])) as (_ & Hupdate & _).
  - intros k it. simpl. rewrite insert_empty, lookup_singleton_Some.
    intros [_ <-]. by split_and!.
  - eexists. split; [vm_compute; reflexivity|]. split; [reflexivity|].
    eapply (Hupdate "id1" (more_samples.rename "Sprocket") "id1").
    vm_compute. reflexivity.
Defined.

(* ===================================================================== *)
(** ** The binding tags against the service's own validation *)
(* ===================================================================== *)

(** X14. The binding tags of CreateProductRequest are stricter than
    validateCreateRequest: they accept a request exactly when
    validateCreateRequest does, the stock is not 0 and the price is not
    NaN.  A request for a product with stock 0, which the service would
    accept, does not get past the tags. *)
Theorem binding_tags_are_stricter_than_validateCreateRequest req :
  binding.accepts req = true ↔
  validateCreateRequest req = None ∧
  CreateProductRequest.Stock req ≠ 0 ∧
  CreateProductRequest.Price req ≠ S754_nan.
Proof.
  rewrite validateCreateRequest_passes. unfold binding.accepts.
  unfold binding.required_string, binding.required_int, binding.gte0.
  rewrite !andb_true_iff, !negb_true_iff, !bool_decide_eq_false, Z.eqb_neq, Z.leb_le.
  destruct (CreateProductRequest.Price req) as [[]|[]| |[] m e]; cbv [binding.required_float64 binding.gt0 float64_le0 SFltb SFleb SFcompare];
    intuition congruence.
Qed.

(* ===================================================================== *)
(** ** The handlers on the DynamoDB-backed repository *)
(* ===================================================================== *)

(** A call cannot fail when the store answers every call. *)
Ltac no_fault_when_reliable :=
  match goal with
  | Hr : reliable ?db, H : next_fault _ = Some _ |- _ =>
      unfold next_fault in H; cbn [Faults after Trace] in H; by rewrite Hr in H
  end.

Lemma reliable_next db : reliable db → next_fault db = None.
Proof. intros Hr. apply Hr. Qed.

Lemma reliable_next_after c table db :
  reliable db → next_fault (after c table db) = None.
Proof. intros Hr. apply Hr. Qed.

(** X15. What the GetProduct handler answers says what the table holds,
    whatever the fault plan: 400 exactly for an empty id; 200 only with
    the record stored under the id as payload; 404 only when nothing is
    stored under the id; and 500 only when some SDK call fails (never
    when the store answers every call).  There is no other status. *)
Theorem GetProduct_handler_status env db id :
  (handlers.Status (handlers.GetProduct id (env, db)).2 = handlers.StatusOK ∨
   handlers.Status (handlers.GetProduct id (env, db)).2 = handlers.StatusBadRequest ∨
   handlers.Status (handlers.GetProduct id (env, db)).2 = handlers.StatusNotFound ∨
   handlers.Status (handlers.GetProduct id (env, db)).2 = handlers.StatusInternalServerError) ∧
  (handlers.Status (handlers.GetProduct id (env, db)).2 = handlers.StatusBadRequest ↔ id = "") ∧
  (handlers.Status (handlers.GetProduct id (env, db)).2 = handlers.StatusOK →
     ∃ p, Table db !! id = Some p ∧
          handlers.Payload (handlers.GetProduct id (env, db)).2 = handlers.ProductJSON p) ∧
  (handlers.Status (handlers.GetProduct id (env, db)).2 = handlers.StatusNotFound →
     Table db !! id = None) ∧
  (reliable db →
     handlers.Status (handlers.GetProduct id (env, db)).2 ≠ handlers.StatusInternalServerError).
Proof.
  unfold handlers.GetProduct. case_bool_decide as Hid.
  { simpl. split_and!; try done; by auto. }
  rewrite GetProduct_paths, bool_decide_eq_false_2 by done.
  cbn [GetByID productRepository]. rewrite GetByID_paths. cbv zeta.
  destruct (next_fault db) eqn:H1;
    [|destruct (Table db !! id) as [item|];
      [destruct (next_fault (after (CallGetItem id) (Table db) db)) eqn:H2|]];
    simpl; (split_and!; [auto|split; [done|by intros ->]|try done..]).
  - intros Hr. by rewrite reliable_next in H1.
  - intros Hr. by rewrite reliable_next_after in H2.
  - intros _. by exists item.
Qed.

Lemma GetProduct_handler_status_witness :
  handlers.Status (handlers.GetProduct "id2"
            (samples.env0, samples.table_of [samples.gadget false])).2 = 200 ∧
  handlers.Status (handlers.GetProduct "id1"
            (samples.env0, samples.table_of [samples.gadget false])).2 = 404.
Proof.
  split; [reflexivity|].
  destruct (GetProduct_handler_status samples.env0
              (samples.table_of [samples.gadget false]) "id1")
    as ([H|[H|[H|H]]] & Hbad & Hok & _ & Hr).
  - by destruct (Hok H) as (p & Hp & _).
  - by apply Hbad in H.
  - done.
  - by destruct Hr; [intros n|].
Defined.

(** X16. What the DeleteProduct handler answers says what happened to
    the table, whatever the fault plan: 400 exactly for an empty id; 200
    only when a record was stored under the id, and it is then gone; 404
    only when nothing was stored under the id, and the table is then as
    it was; 500 only when some SDK call fails. *)
Theorem DeleteProduct_handler_status env db id :
  (handlers.Status (handlers.DeleteProduct id (env, db)).2 = handlers.StatusBadRequest
     ↔ id = "") ∧
  (handlers.Status (handlers.DeleteProduct id (env, db)).2 = handlers.StatusOK →
     is_Some (Table db !! id) ∧
     Table (handlers.DeleteProduct id (env, db)).1.2 = delete id (Table db)) ∧
  (handlers.Status (handlers.DeleteProduct id (env, db)).2 = handlers.StatusNotFound →
     Table db !! id = None ∧
     Table (handlers.DeleteProduct id (env, db)).1.2 = Table db) ∧
  (reliable db →
     handlers.Status (handlers.DeleteProduct id (env, db)).2
       ≠ handlers.StatusInternalServerError).
Proof.
  unfold handlers.DeleteProduct. case_bool_decide as Hid.
  { simpl. split_and!; try done; by auto. }
  rewrite DeleteProduct_paths, bool_decide_eq_false_2 by done.
  cbn [GetByID Delete productRepository]. rewrite GetByID_paths. cbv zeta.
  destruct (next_fault db) eqn:H1;
    [|destruct (Table db !! id) as [item|];
      [destruct (next_fault (after (CallGetItem id) (Table db) db)) eqn:H2;
        [|rewrite Delete_paths;
          destruct (next_fault (after (CallUnmarshalMap item) (Table db)
                                  (after (CallGetItem id) (Table db) db))) eqn:H3]|]];
    simpl; (split_and!; [split; [done|by intros ->]|try done..]);
    try (intros Hr; no_fault_when_reliable).
Qed.

Lemma DeleteProduct_handler_status_witness :
  handlers.Status (handlers.DeleteProduct "id1"
            (samples.env0, samples.table_of [samples.widget true])).2 = 200 ∧
  Table (handlers.DeleteProduct "id1"
           (samples.env0, samples.table_of [samples.widget true])).1.2 !! "id1" = None.
Proof.
  split; [reflexivity|].
  destruct (DeleteProduct_handler_status samples.env0
              (samples.table_of [samples.widget true]) "id1") as (_ & Hok & _).
  destruct (Hok eq_refl) as [_ ->]. apply lookup_delete_eq.
Defined.

(** X17. What the UpdateProduct handler answers to a decoded request for
    a non-empty id, whatever the fault plan: 200 only when a record was
    stored under the id and the request passes validateUpdateRequest, the
    payload being that record with the request applied, which the table
    now holds; 404 only when nothing was stored under the id; 400 only
    when a record was stored and the request does not pass validation;
    in the last two cases the table is as it was.  When the store answers
    every call the status is never 500, and it is 404 for a missing
    record even when the request is invalid as well. *)
Theorem UpdateProduct_handler_status env db id req :
  id ≠ "" →
  (handlers.Status (handlers.UpdateProduct id (Ok req) (env, db)).2 = handlers.StatusOK →
     ∃ p, Table db !! id = Some p ∧ validateUpdateRequest req = None ∧
          handlers.Payload (handlers.UpdateProduct id (Ok req) (env, db)).2
            = handlers.ProductJSON (merged (now_of env) p req) ∧
          Table (handlers.UpdateProduct id (Ok req) (env, db)).1.2
            = <[ID p := merged (now_of env) p req]> (Table db)) ∧
  (handlers.Status (handlers.UpdateProduct id (Ok req) (env, db)).2
     = handlers.StatusNotFound →
     Table db !! id = None ∧
     Table (handlers.UpdateProduct id (Ok req) (env, db)).1.2 = Table db) ∧
  (handlers.Status (handlers.UpdateProduct id (Ok req) (env, db)).2
     = handlers.StatusBadRequest →
     is_Some (Table db !! id) ∧ validateUpdateRequest req ≠ None ∧
     Table (handlers.UpdateProduct id (Ok req) (env, db)).1.2 = Table db) ∧
  (reliable db →
     handlers.Status (handlers.UpdateProduct id (Ok req) (env, db)).2
       ≠ handlers.StatusInternalServerError) ∧
  (reliable db → Table db !! id = None →
     handlers.Status (handlers.UpdateProduct id (Ok req) (env, db)).2
       = handlers.StatusNotFound).
Proof.
  intros Hid. unfold handlers.UpdateProduct.
  rewrite (bool_decide_eq_false_2 _ Hid).
  rewrite UpdateProduct_paths, bool_decide_eq_false_2 by done.
  cbn [GetByID repository.Update productRepository]. rewrite GetByID_paths. cbv zeta.
  destruct (next_fault db) eqn:H1;
    [|destruct (Table db !! id) as [item|];
      [destruct (next_fault (after (CallGetItem id) (Table db) db)) eqn:H2;
        [|destruct (validateUpdateRequest req) as [err|];
          [|rewrite Update_paths, !Table_after; cbv zeta;
            destruct (next_fault (after (CallUnmarshalMap item) (Table db)
                                    (after (CallGetItem id) (Table db) db))) eqn:H3;
            [|destruct (next_fault
                         (after (CallMarshalMap (merged (now_of env) item req))
                            (Table db)
                            (after (CallUnmarshalMap item) (Table db)
                               (after (CallGetItem id) (Table db) db)))) eqn:H4]]]|]];
    simpl; (split_and!; try done);
    try (intros Hr; no_fault_when_reliable);
    try (intros Hr; intros _; no_fault_when_reliable).
  intros _. exists item. split_and!; [done..|].
  by rewrite <-(merged_ID (now_of env) item req).
Qed.

Lemma UpdateProduct_handler_status_witness :
  handlers.Status (handlers.UpdateProduct "id9" (Ok (samples.only_price (S754_zero false)))
            (samples.env0, samples.table_of [samples.widget true])).2 = 404 ∧
  handlers.Status (handlers.UpdateProduct "id1" (Ok (samples.only_price (S754_zero false)))
            (samples.env0, samples.table_of [samples.widget true])).2 = 400.
Proof.
  split.
  - destruct (UpdateProduct_handler_status samples.env0
                (samples.table_of [samples.widget true]) "id9"
                (samples.only_price (S754_zero false))) as (_ & _ & _ & _ & Hmissing);
      [discriminate|].
    apply Hmissing; [by intros n|reflexivity].
  - reflexivity.
Defined.

Lemma binding_tags_are_stricter_than_validateCreateRequest_witness :
  validateCreateRequest more_samples.out_of_stock_request = None ∧
  binding.accepts more_samples.out_of_stock_request = false.
Proof.
  split; [reflexivity|].
  destruct (binding.accepts more_samples.out_of_stock_request) eqn:Haccepts; [|done].
  apply binding_tags_are_stricter_than_validateCreateRequest in Haccepts
    as (_ & Hstock & _).
  by destruct Hstock.
Defined.

Lemma binding_accepts_validates req :
  binding.accepts req = true → validateCreateRequest req = None.
Proof.
  rewrite validateCreateRequest_passes. unfold binding.accepts.
  unfold binding.required_string, binding.required_int, binding.gte0.
  rewrite !andb_true_iff, !negb_true_iff, !bool_decide_eq_false, Z.eqb_neq, Z.leb_le.
  destruct (CreateProductRequest.Price req) as [[]|[]| |[] m e];
    cbv [binding.required_float64 binding.gt0 float64_le0 SFltb SFleb SFcompare];
    intuition congruence.
Qed.

(** X18. What the CreateProduct handler answers to a decoded request
    that has passed the binding tags, whatever the fault plan: 201 or
    500, never 400; with 201 the payload is the new product, which the
    table now holds under its id; with 500 the marshalling or the write
    was refused by the SDK; and when the store answers every call the
    status is 201. *)
Theorem CreateProduct_handler_status env db req :
  binding.accepts req = true →
  (handlers.Status (handlers.CreateProduct (Ok req) (env, db)).2 = handlers.StatusCreated ∨
   handlers.Status (handlers.CreateProduct (Ok req) (env, db)).2
     = handlers.StatusInternalServerError) ∧
  (handlers.Status (handlers.CreateProduct (Ok req) (env, db)).2 = handlers.StatusCreated →
     ∃ p, (NewProduct req env).2 = Ok p ∧
          handlers.Payload (handlers.CreateProduct (Ok req) (env, db)).2
            = handlers.ProductJSON p ∧
          Table (handlers.CreateProduct (Ok req) (env, db)).1.2 !! ID p = Some p) ∧
  (handlers.Status (handlers.CreateProduct (Ok req) (env, db)).2
     = handlers.StatusInternalServerError →
     ¬ no_fault_for 2 db) ∧
  (reliable db →
     handlers.Status (handlers.CreateProduct (Ok req) (env, db)).2 = handlers.StatusCreated).
Proof.
  intros Haccepts.
  apply binding_accepts_validates in Haccepts.
  unfold handlers.CreateProduct.
  rewrite CreateProduct_paths, Haccepts, NewProduct_eq.
  cbn [Create productRepository]. rewrite Create_paths. cbv zeta.
  destruct (next_fault db) eqn:H1;
    [|match goal with |- context [next_fault (after ?c ?t db)] =>
        destruct (next_fault (after c t db)) eqn:H2 end];
    simpl; (split_and!; try done; auto);
    try (intros Hr; no_fault_when_reliable).
  - intros _ Hf. by rewrite (no_fault_for_next 1 db Hf) in H1.
  - intros _ Hf.
    match type of H2 with
    | next_fault (after ?c ?t db) = _ => apply (no_fault_for_after 1 c t) in Hf
    end.
    by rewrite (no_fault_for_next 0 _ Hf) in H2.
  - intros _. eexists. split_and!; [done..|]. apply lookup_insert_eq.
Qed.

Lemma CreateProduct_handler_status_witness :
  handlers.Status (handlers.CreateProduct (Ok samples.widget_request)
            (samples.env0, samples.table_of [])).2 = 201.
Proof.
  destruct (CreateProduct_handler_status samples.env0 (samples.table_of [])
              samples.widget_request) as (_ & _ & _ & Hcreated); [reflexivity|].
  apply Hcreated. by intros n.
Defined.

Lemma GetAll_reliable db :
  reliable db → ∃ db1 ps, productRepository_GetAll db = (db1, Ok ps).
Proof.
  intros Hr. pose proof (reliable_no_fault 1 db Hr).
  unfold productRepository_GetAll, bind, wrapping, Scan, sdk_call.
  sdk_calls_succeed.
  match goal with |- context [unmarshal_each ?items [] ?db1] =>
    destruct (unmarshal_each_reliable items [] db1) as [db2 ->]; [done|]
  end.
  by do 2 eexists.
Qed.

Lemma GetByCategory_reliable category db :
  reliable db →
  ∃ db1 ps, productRepository_GetByCategory category db = (db1, Ok ps).
Proof.
  intros Hr. pose proof (reliable_no_fault 1 db Hr).
  unfold productRepository_GetByCategory, bind, wrapping, Scan, sdk_call.
  sdk_calls_succeed.
  match goal with |- context [unmarshal_each ?items [] ?db1] =>
    destruct (unmarshal_each_reliable items [] db1) as [db2 ->]; [done|]
  end.
  by do 2 eexists.
Qed.

(** X19. What the two listing handlers answer, whatever the fault plan.
    GetAllProducts answers 200 or 500; GetProductsByCategory answers 400
    exactly for an empty category, and 200 or 500 otherwise.  A 200
    carries a list of stored products that are all active (and, for a
    category, all of that category), a count equal to the length of that
    list and, for a category, the category asked for.  When the store
    answers every call the status is 200. *)
Theorem listing_handlers_status env db :
  ((handlers.Status (handlers.GetAllProducts (env, db)).2 = handlers.StatusOK ∨
    handlers.Status (handlers.GetAllProducts (env, db)).2
      = handlers.StatusInternalServerError) ∧
   (handlers.Status (handlers.GetAllProducts (env, db)).2 = handlers.StatusOK →
      ∃ ps, handlers.Payload (handlers.GetAllProducts (env, db)).2
              = handlers.H {[ "products" := handlers.Products ps;
                              "count" := handlers.Int (Z.of_nat (length ps)) ]} ∧
            ∀ p, p ∈ ps → IsActive p = true ∧ ∃ key, Table db !! key = Some p) ∧
   (reliable db →
      handlers.Status (handlers.GetAllProducts (env, db)).2 = handlers.StatusOK)) ∧
  (∀ category,
     (handlers.Status (handlers.GetProductsByCategory category (env, db)).2
        = handlers.StatusBadRequest ↔ category = "") ∧
     (handlers.Status (handlers.GetProductsByCategory category (env, db)).2
        = handlers.StatusOK →
        ∃ ps, handlers.Payload (handlers.GetProductsByCategory category (env, db)).2
                = handlers.H {[ "products" := handlers.Products ps;
                                "category" := handlers.Str category;
                                "count" := handlers.Int (Z.of_nat (length ps)) ]} ∧
              ∀ p, p ∈ ps → IsActive p = true ∧ Category p = category ∧
                            ∃ key, Table db !! key = Some p) ∧
     (reliable db → category ≠ "" →
        handlers.Status (handlers.GetProductsByCategory category (env, db)).2
          = handlers.StatusOK)).
Proof.
  split.
  - unfold handlers.GetAllProducts. rewrite GetAllProducts_paths.
    cbn [GetAll productRepository].
    destruct (productRepository_GetAll db) as [db1 [ps|e]] eqn:Hall; simpl.
    + split_and!; [by left| |done]. intros _. exists ps. split; [done|].
      by eapply GetAll_ok.
    + split_and!; [by right|done|]. intros Hr.
      destruct (GetAll_reliable db Hr) as (? & ? & ?). congruence.
  - intros category. unfold handlers.GetProductsByCategory.
    case_bool_decide as Hc; [simpl; by split_and!|].
    rewrite GetProductsByCategory_paths, bool_decide_eq_false_2 by done.
    cbn [GetByCategory productRepository].
    destruct (productRepository_GetByCategory category db) as [db1 [ps|e]] eqn:Hcat;
      simpl.
    + split_and!; [done| |done]. intros _. exists ps. split; [done|].
      by eapply GetByCategory_ok.
    + split_and!; [done|done|]. intros Hr _.
      destruct (GetByCategory_reliable category db Hr) as (? & ? & ?). congruence.
Qed.

Lemma listing_handlers_status_witness :
  ∃ ps,
    handlers.Payload (handlers.GetAllProducts
               (samples.env0,
                samples.table_of [samples.widget true; samples.gadget false])).2
    = handlers.H {[ "products" := handlers.Products ps;
                    "count" := handlers.Int (Z.of_nat (length ps)) ]} ∧
    ∀ p, p ∈ ps → IsActive p = true.
Proof.
  destruct (listing_handlers_status samples.env0
              (samples.table_of [samples.widget true; samples.gadget false]))
    as ((_ & Hok & _) & _).
  destruct (Hok eq_refl) as (ps & Hpayload & Hactive).
  exists ps. split; [done|]. intros p Hp. by destruct (Hactive p Hp).
Defined.
